(** * Question answering over Ontotext GraphDB: the generate / execute / repair chain

    A shallow embedding of
    [libs/community/langchain_community/chains/graph_qa/ontotext_graphdb.py]
    (class [OntotextGraphDBQAChain]) and the properties of its repair loop and
    of its result formatter.

    Conventions of the embedding.
    - A Python [str] is the Rocq [string] of the bytes of its UTF-8 encoding
      (a lone surrogate encoded in three bytes like any other code point of
      its range), so every [str] has its [string] and concatenation is
      concatenation; [decode_utf8] reads the code points back.
    - A Python [int] is a [Z].
    - A [dict] read in insertion order ([d.items()]) is an association list;
      a [dict] used as a map ([inputs], the returned mapping) is a [gmap].
    - A call that may raise returns a [result]: a value or the exception.
    - The collaborators (language-model chains, the graph endpoint, the
      clock) are arbitrary state transformers over an abstract world [W];
      every call of the chain to one of them is recorded in a trace. *)

From Stdlib Require Import ZArith Ascii String List Lia.
From Equations Require Import Equations.
From stdpp Require Import gmap strings list pretty.

Local Open Scope Z_scope.
Local Open Scope string_scope.
Local Open Scope list_scope.

(** ** Exceptions *)

(** The exception classes the [except] clauses of [_execute_query] tell
    apart.  An exception object is filed under the first clause it is an
    instance of; [BaseExceptionOnly] stands for the exceptions no clause
    matches (those outside [Exception], such as [KeyboardInterrupt]). *)
Inductive exn_class : Type :=
| QueryBadFormed                (* status code 400 *)
| Unauthorized                  (* status code 401 *)
| EndPointNotFound              (* status code 404 *)
| URITooLong                    (* status code 414 *)
| EndPointInternalError         (* status code 500 *)
| HTTPError (status : Z)        (* urllib.error.HTTPError, [e.status] *)
| OtherException                (* any other instance of [Exception] *)
| BaseExceptionOnly.

(** [exn_str] is [str(e)]. *)
Record exn : Type := Exn { exn_cls : exn_class; exn_str : string }.

#[global] Instance exn_class_eq_dec : EqDecision exn_class.
Proof. solve_decision. Defined.


(** The classes named in [except] clauses, and [isinstance] of an exception
    object in such a class. *)
Inductive except_class : Type :=
| ExQueryBadFormed | ExUnauthorized | ExEndPointNotFound | ExURITooLong
| ExEndPointInternalError | ExHTTPError | ExException.

Definition isinstance (e : exn) (c : except_class) : bool :=
  match c, exn_cls e with
  | ExQueryBadFormed, QueryBadFormed => true
  | ExUnauthorized, Unauthorized => true
  | ExEndPointNotFound, EndPointNotFound => true
  | ExURITooLong, URITooLong => true
  | ExEndPointInternalError, EndPointInternalError => true
  | ExHTTPError, HTTPError _ => true
  | ExException, BaseExceptionOnly => false
  | ExException, _ => true
  | _, _ => false
  end.

Arguments isinstance : simpl never.
Arguments String.append : simpl never.

(** [e.status] as the f-string renders it. *)
Definition exn_status (e : exn) : string :=
  match exn_cls e with
  | HTTPError status => pretty status
  | _ => ""
  end.

(** [raise Exception]: a fresh [Exception()], whose [str] is empty. *)
Definition plain_Exception : exn := Exn OtherException "".

(** [inputs[key]] on a missing key: the [str] of a [KeyError] is the [repr]
    of the key, [repr] being the built-in of that name on [str]. *)
Definition KeyError (repr : string -> string) (key : string) : exn :=
  Exn OtherException (repr key).

(** [obj.attribute] on an object of class [class_name] that has no such
    attribute. *)
Definition AttributeError (class_name attribute : string) : exn :=
  Exn OtherException
    ("'" +:+ class_name +:+ "' object has no attribute '" +:+ attribute +:+ "'").

Inductive result (A : Type) : Type :=
| Ok (a : A)
| Err (e : exn).
Arguments Ok {A} a.
Arguments Err {A} e.

(** ** Result sets *)

(** [SPARQLWrapper.SmartWrapper.Value]. *)
Record Value : Type := mkValue {
  variable : string;
  value : string;
  type : string;
  lang : option string;
  datatype : option string
}.

(** One row of bindings: a [Dict[str, Value]], in [items()] order. *)
Definition Row : Type := list (string * Value).

(** [SPARQLWrapper.SmartWrapper.Bindings]. *)
Record Bindings : Type := mkBindings {
  variables : list string;
  bindings : list Row
}.

(** What [exec_query] may return, after the annotation of [_execute_query]:
    a [Bindings] object, or an object of another class ([QueryResult], or
    one of the classes of [ConvertResult]: [dict], [bytes], [Graph], ...),
    which has no attribute [bindings]. *)
Inductive QueryResults : Type :=
| WithBindings (b : Bindings)
| WithoutBindings (class_name : string).

(** ** [json.dumps] with its default arguments *)

#[local] Set Warnings "-register-all".
Inductive json : Type :=
| JString (s : string)
| JArray (items : list json)
| JObject (members : list (string * json)).

Definition dquote : ascii := "034"%char.
Definition backslash : ascii := "092"%char.

Definition hex_digit (n : N) : ascii :=
  match n with
  | 0%N => "0" | 1%N => "1" | 2%N => "2" | 3%N => "3" | 4%N => "4"
  | 5%N => "5" | 6%N => "6" | 7%N => "7" | 8%N => "8" | 9%N => "9"
  | 10%N => "a" | 11%N => "b" | 12%N => "c" | 13%N => "d" | 14%N => "e"
  | _ => "f"
  end%char.

Definition hex4 (n : N) : string :=
  String (hex_digit ((n / 4096) mod 16))
    (String (hex_digit ((n / 256) mod 16))
       (String (hex_digit ((n / 16) mod 16))
          (String (hex_digit (n mod 16)) ""))).

(** The escape of a code point below 65536: a backslash, the letter u and
    four lower-case hexadecimal digits. *)
Definition u_escape (n : N) : string :=
  String backslash (String "u" (hex4 n)).

(** [ESCAPE_DCT] and the replacement function of
    [py_encode_basestring_ascii]: a backslash, a double quote and every
    code point outside the range from space to tilde are replaced; a code
    point from 65536 on is written as its two surrogates. *)
Definition escape_code_point (n : N) : string :=
  (if n =? 34 then String backslash (String dquote "")
   else if n =? 92 then String backslash (String backslash "")
   else if n =? 10 then String backslash "n"
   else if n =? 13 then String backslash "r"
   else if n =? 9 then String backslash "t"
   else if n =? 12 then String backslash "f"
   else if n =? 8 then String backslash "b"
   else if (32 <=? n) && (n <=? 126) then String (ascii_of_N n) ""
   else if n <? 65536 then u_escape n
   else
     let n := n - 65536 in
     let s1 := 55296 + (n / 1024) mod 1024 in
     let s2 := 56320 + n mod 1024 in
     u_escape s1 +:+ u_escape s2)%N.

(** A byte that continues a UTF-8 sequence. *)
Definition continuation (c : ascii) : bool :=
  ((128 <=? N_of_ascii c) && (N_of_ascii c <? 192))%N.

Definition payload (c : ascii) : N := (N_of_ascii c - 128)%N.

(** The code points of a [str], read from its bytes.  A byte that starts no
    sequence of the expected length stands for itself; the encoding of a
    [str] has no such byte. *)
Fixpoint decode_utf8 (s : string) : list N :=
  match s with
  | EmptyString => []
  | String c0 s1 =>
      let b0 := N_of_ascii c0 in
      let alone := b0 :: decode_utf8 s1 in
      if (b0 <? 192)%N then alone
      else
        match s1 with
        | String c1 s2 =>
            if negb (continuation c1) then alone
            else if (b0 <? 224)%N then
              ((b0 - 192) * 64 + payload c1)%N :: decode_utf8 s2
            else
              match s2 with
              | String c2 s3 =>
                  if negb (continuation c2) then alone
                  else if (b0 <? 240)%N then
                    ((b0 - 224) * 4096 + payload c1 * 64 + payload c2)%N
                    :: decode_utf8 s3
                  else
                    match s3 with
                    | String c3 s4 =>
                        if negb (continuation c3) || (248 <=? b0)%N then alone
                        else
                          ((b0 - 240) * 262144 + payload c1 * 4096
                           + payload c2 * 64 + payload c3)%N
                          :: decode_utf8 s4
                    | EmptyString => alone
                    end
              | EmptyString => alone
              end
        | EmptyString => alone
        end
  end.

Fixpoint escape_code_points (code_points : list N) : string :=
  match code_points with
  | [] => ""
  | n :: rest => escape_code_point n +:+ escape_code_points rest
  end.

Definition escape_string (s : string) : string :=
  escape_code_points (decode_utf8 s).

Definition encode_basestring_ascii (s : string) : string :=
  String dquote (escape_string s +:+ String dquote "").

(** [separator.join(parts)]. *)
Fixpoint join (separator : string) (parts : list string) : string :=
  match parts with
  | [] => ""
  | [p] => p
  | p :: rest => p +:+ separator +:+ join separator rest
  end.

(** [json.dumps(obj)]: [ensure_ascii=True], item separator [", "], key
    separator [": "], no indentation. *)
Fixpoint json_dumps (obj : json) : string :=
  match obj with
  | JString s => encode_basestring_ascii s
  | JArray items => "[" +:+ join ", " (map json_dumps items) +:+ "]"
  | JObject members =>
      "{" +:+
      join ", "
        (map (fun kv => encode_basestring_ascii (fst kv) +:+ ": " +:+ json_dumps (snd kv))
             members) +:+
      "}"
  end.

(** ** [OntotextGraphDBQAChain.query_results_to_json] *)

(** The comprehension
    [[{k: v.value} for d in query_bindings for k, v in d.items()]]
    unfolded into the two nested loops it abbreviates, each appending to
    [res]. *)
Definition for_items (d : Row) (res : list json) : list json :=
  foldl (fun res kv => res ++ [JObject [(fst kv, JString (value (snd kv)))]]) res d.

Definition for_rows (query_bindings : list Row) (res : list json) : list json :=
  foldl (fun res d => for_items d res) res query_bindings.

Definition query_results_to_json (query_results : QueryResults) : result string :=
  match query_results with
  | WithBindings b =>
      let query_bindings := bindings b in
      let res := for_rows query_bindings [] in
      let query_results_str := json_dumps (JArray res) in
      Ok query_results_str
  | WithoutBindings class_name => Err (AttributeError class_name "bindings")
  end.

Arguments query_results_to_json : simpl never.

(** The formatter as the specification words it: every row is replaced by
    one single-key mapping per binding, rows and bindings kept in order. *)
Definition single_entry (kv : string * Value) : json :=
  JObject [(fst kv, JString (value (snd kv)))].

Definition flat_spec (rows : list Row) : list json :=
  List.concat (map (fun row => map single_entry row) rows).

(** What the formatter reads of a result set: the names and the values of
    the bindings, row by row. *)
Definition names_and_values (b : Bindings) : list (list (string * string)) :=
  map (map (fun kv => (fst kv, value (snd kv)))) (bindings b).

(** The row-grouped shape, which the formatter does not produce. *)
Definition row_grouped (rows : list Row) : list json :=
  map (fun row => JObject (map (fun kv => (fst kv, JString (value (snd kv)))) row)) rows.

(** ** The chain object, its collaborators and the trace of their calls *)

(** What the chain does to the outside, in the order it does it.  Each call
    to a collaborator is recorded with what the collaborator answered. *)
Inductive event : Type :=
| on_text (text : string) (color : option string)
| generation_invoke (prompt schema : string) (r : result string)
| exec_query (query : string) (r : result QueryResults)
| fix_invoke (error_message generated_sparql schema : string) (r : result string)
| qa_invoke (prompt context : string) (r : result string).

Definition red : option string := Some "red".
Definition green : option string := Some "green".

(** The fields of [OntotextGraphDBQAChain].  A chain's [invoke] followed by
    the lookup of its [output_key] is one call that yields the text or
    raises; [graph] contributes [get_schema] and [exec_query].  [time_time]
    and [format_seconds] stand for the clock and for the two-decimal
    rendering of a difference of two readings, [repr] for the built-in
    [repr] on [str]. *)
Record OntotextGraphDBQAChain (W Instant : Type) : Type := mkChain {
  graph_get_schema : W -> string;
  graph_exec_query : string -> W -> result QueryResults * W;
  sparql_generation_chain : string -> string -> W -> result string * W;
  sparql_fix_chain : string -> string -> string -> W -> result string * W;
  max_fix_retries : Z;
  qa_chain : string -> string -> W -> result string * W;
  input_key : string;
  output_key_answer : string;
  output_key_generated_sparql : string;
  time_time : W -> Instant * W;
  format_seconds : Instant -> Instant -> string;
  repr : string -> string
}.
Arguments graph_get_schema {W Instant} _ _.
Arguments graph_exec_query {W Instant} _ _ _.
Arguments sparql_generation_chain {W Instant} _ _ _ _.
Arguments sparql_fix_chain {W Instant} _ _ _ _ _.
Arguments max_fix_retries {W Instant} _.
Arguments qa_chain {W Instant} _ _ _ _.
Arguments input_key {W Instant} _.
Arguments output_key_answer {W Instant} _.
Arguments output_key_generated_sparql {W Instant} _.
Arguments time_time {W Instant} _ _.
Arguments format_seconds {W Instant} _ _ _.
Arguments repr {W Instant} _ _.

(** The local variables of [_execute_query] that its statements assign. *)
Record locals : Type := mkLocals {
  retries : Z;
  error_message : string;
  generated_sparql : string
}.

Definition set_retries (v : Z) (l : locals) : locals :=
  mkLocals v (error_message l) (generated_sparql l).
Definition set_error_message (v : string) (l : locals) : locals :=
  mkLocals (retries l) v (generated_sparql l).
Definition set_generated_sparql (v : string) (l : locals) : locals :=
  mkLocals (retries l) (error_message l) v.

(** How a suite of statements ends when it does not raise: it runs to its
    end, or it executes a [return]. *)
Inductive completion (R : Type) : Type :=
| Normal
| Returned (r : R).
Arguments Normal {R}.
Arguments Returned {R} r.

(** [Equations]' idiom to remember the equation of a matched value. *)
Definition inspect {A : Type} (a : A) : {b : A | a = b} := exist _ a eq_refl.

Section Chain.

Context {W Instant : Type}.

Record St : Type := mkSt { world : W; trace : list event }.

(** A method or collaborator call: state in, value or exception and state
    out. *)
Definition M (A : Type) : Type := St -> result A * St.

(** A statement inside a method whose local variables are [L]. *)
Definition Stm (L A : Type) : Type := L -> St -> result A * L * St.

Definition ret {L A} (a : A) : Stm L A := fun l s => (Ok a, l, s).

Definition raise {L A} (e : exn) : Stm L A := fun l s => (Err e, l, s).

Definition bind {L A B} (c : Stm L A) (k : A -> Stm L B) : Stm L B :=
  fun l s => match c l s with
             | (Ok a, l', s') => k a l' s'
             | (Err e, l', s') => (Err e, l', s')
             end.

Definition get {L} : Stm L L := fun l s => (Ok l, l, s).

Definition assign {L} (f : L -> L) : Stm L unit := fun l s => (Ok tt, f l, s).

Definition lift {L A} (c : M A) : Stm L A :=
  fun l s => let (r, s') := c s in (r, l, s').

(** Runs the body of a method on a fresh frame of local variables. *)
Definition run {L A} (l : L) (c : Stm L A) : M A :=
  fun s => let '(r, _, s') := c l s in (r, s').

(** [_run_manager.on_text(...)] and the like: the call is recorded. *)
Definition emit {L} (ev : event) : Stm L unit :=
  fun l s => (Ok tt, l, {| world := world s; trace := trace s ++ [ev] |}).

(** A call to a collaborator: the world moves, the call is recorded with
    its answer. *)
Definition call {A} (f : W -> result A * W) (ev : result A -> event) : M A :=
  fun s => let (r, w) := f (world s) in
           (r, {| world := w; trace := trace s ++ [ev r] |}).

(** [try: body except ...: suites].  [handlers e] is the suite of the first
    clause that matches [e], if one does, run on the local variables as the
    body left them; an exception raised by that suite is not handled again
    by this statement. *)
Definition try_except {L A} (body : Stm L A) (handlers : exn -> option (Stm L A)) : Stm L A :=
  fun l s => match body l s with
             | (Ok a, l', s') => (Ok a, l', s')
             | (Err e, l', s') =>
                 match handlers e with
                 | Some suite => suite l' s'
                 | None => (Err e, l', s')
                 end
             end.

Notation "'let*' x ':=' c 'in' k" := (bind c (fun x => k))
  (at level 10, x name, c at level 100, k at level 200).
Notation "c ';;;' k" := (bind c (fun _ => k))
  (at level 100, k at level 200, right associativity).

Variable self : OntotextGraphDBQAChain W Instant.

Definition Executed : Type := (string * QueryResults)%type.

(** *** [_execute_query], lines 211-251: the body of the [while] loop *)
Definition while_body (ontology_schema : string) : Stm locals (completion Executed) :=
  let* l := get in
  emit (on_text ("Retrying to generate the query " +:+ pretty (retries l) +:+ "/"
                 +:+ pretty (max_fix_retries self)) red) ;;;
  try_except
    (let* l := get in
     let* sparql_fix_chain_result :=
       lift (call (sparql_fix_chain self (error_message l) (generated_sparql l)
                     ontology_schema)
                  (fix_invoke (error_message l) (generated_sparql l) ontology_schema)) in
     assign (set_generated_sparql sparql_fix_chain_result) ;;;
     emit (on_text "Generated query:" None) ;;;
     let* l := get in
     emit (on_text (generated_sparql l) None) ;;;
     let* query_results :=
       lift (call (graph_exec_query self (generated_sparql l))
                  (exec_query (generated_sparql l))) in
     ret (Returned (generated_sparql l, query_results)))
    (fun e =>
       if isinstance e ExQueryBadFormed then Some (
         assign (fun l => set_retries (retries l + 1) l) ;;;
         assign (set_error_message (exn_str e)) ;;;
         let* l := get in
         emit (on_text ("QueryBadFormed (status code 400): " +:+ error_message l) red) ;;;
         if retries l >? max_fix_retries self then raise e else ret Normal)
       else None).

(** A turn of the body that falls to the next test of the loop condition
    has counted one more retry. *)
Lemma while_body_Normal ontology_schema l s l' s' :
  while_body ontology_schema l s = (Ok Normal, l', s') ->
  retries l' = retries l + 1 /\ retries l' <= max_fix_retries self.
Proof.
  unfold while_body, bind, try_except, get, emit, lift, call, assign, ret, raise.
  cbn.
  destruct (sparql_fix_chain self _ _ _ _) as [[q|e] w1]; cbn.
  - destruct (graph_exec_query self _ _) as [[rs|e] w2]; cbn; [discriminate|].
    destruct (isinstance e ExQueryBadFormed); cbn; [|discriminate].
    destruct (Z.gtb_spec (retries l + 1) (max_fix_retries self)); [discriminate|].
    intros [= <- _]. cbn. lia.
  - destruct (isinstance e ExQueryBadFormed); cbn; [|discriminate].
    destruct (Z.gtb_spec (retries l + 1) (max_fix_retries self)); [discriminate|].
    intros [= <- _]. cbn. lia.
Qed.

(** *** [_execute_query], line 211: [while retries <= self.max_fix_retries] *)
Equations? while_loop (ontology_schema : string) (l : locals) (s : St)
  : result (completion Executed) * locals * St
  by wf (Z.to_nat (max_fix_retries self + 1 - retries l)) lt :=
while_loop ontology_schema l s with inspect (retries l <=? max_fix_retries self)%Z := {
  | exist _ false _ => (Ok Normal, l, s)
  | exist _ true Hle with inspect (while_body ontology_schema l s) := {
    | exist _ (Ok Normal, l', s') Hbody => while_loop ontology_schema l' s'
    | exist _ finished _ => finished } }.
Proof.
  apply while_body_Normal in Hbody. lia.
Qed.

(** *** [_execute_query], lines 187-301: the [try] statement *)
Definition try_statement (ontology_schema : string) : Stm locals (completion Executed) :=
  try_except
    (emit (on_text "Generated query:" None) ;;;
     let* l := get in
     emit (on_text (generated_sparql l) None) ;;;
     let* query_results :=
       lift (call (graph_exec_query self (generated_sparql l))
                  (exec_query (generated_sparql l))) in
     ret (Returned (generated_sparql l, query_results)))
    (fun e =>
       if isinstance e ExQueryBadFormed then Some (
         assign (set_retries 1) ;;;
         assign (set_error_message (exn_str e)) ;;;
         let* l := get in
         emit (on_text ("QueryBadFormed (status code 400): " +:+ error_message l) red) ;;;
         (if retries l >? max_fix_retries self then raise e else ret tt) ;;;
         while_loop ontology_schema)
       else if isinstance e ExUnauthorized then Some (
         emit (on_text ("Unauthorized (status code 401): " +:+ exn_str e) red) ;;;
         raise e)
       else if isinstance e ExEndPointNotFound then Some (
         emit (on_text ("EndPointNotFound (status code 404): " +:+ exn_str e) red) ;;;
         raise e)
       else if isinstance e ExURITooLong then Some (
         emit (on_text ("URITooLong (status code 414): " +:+ exn_str e) red) ;;;
         raise e)
       else if isinstance e ExEndPointInternalError then Some (
         emit (on_text ("EndPointInternalError (status code 500): " +:+ exn_str e) red) ;;;
         raise e)
       else if isinstance e ExHTTPError then Some (
         emit (on_text ("HTTPError (status code " +:+ exn_status e +:+ "): "
                        +:+ exn_str e) red) ;;;
         raise e)
       else if isinstance e ExException then Some (
         emit (on_text ("Exception: " +:+ exn_str e) red) ;;;
         raise e)
       else None).

(** *** [_execute_query]

    The frame starts with the parameter [generated_sparql]; [retries] and
    [error_message] are unbound until the first handler assigns them, and
    hold placeholders until then.  Lines 303-309 follow the [try]
    statement. *)
Definition _execute_query (generated_sparql ontology_schema : string) : M Executed :=
  run (mkLocals 0 "" generated_sparql)
    (let* done := try_statement ontology_schema in
     match done with
     | Returned r => ret r
     | Normal =>
         emit (on_text "Unable to execute query" red) ;;;
         raise plain_Exception
     end).

(** *** [_call] *)

Definition read_schema : M string :=
  fun s => (Ok (graph_get_schema self (world s)), s).

(** A call of a function of this module that touches nothing. *)
Definition returns {A} (r : result A) : M A := fun s => (r, s).

Definition read_clock : M Instant :=
  fun s => let (t, w) := time_time self (world s) in
           (Ok t, {| world := w; trace := trace s |}).

Definition _call (inputs : gmap string string) : M (gmap string string) :=
  run tt
    (let* prompt :=
       match inputs !! input_key self with
       | Some v => ret v
       | None => raise (KeyError (repr self) (input_key self))
       end in
     let* ontology_schema := lift read_schema in
     let* start := lift read_clock in
     emit (on_text "User question:" green) ;;;
     emit (on_text prompt green) ;;;
     let* generated_sparql :=
       lift (call (sparql_generation_chain self prompt ontology_schema)
                  (generation_invoke prompt ontology_schema)) in
     let* executed := lift (_execute_query generated_sparql ontology_schema) in
     let generated_valid_sparql := fst executed in
     let query_results := snd executed in
     let* query_results_str := lift (returns (query_results_to_json query_results)) in
     emit (on_text "Query results:" green) ;;;
     emit (on_text query_results_str green) ;;;
     let* result :=
       lift (call (qa_chain self prompt query_results_str)
                  (qa_invoke prompt query_results_str)) in
     let* stop := lift read_clock in
     emit (on_text ("Finished chain for " +:+ format_seconds self stop start
                    +:+ " seconds") None) ;;;
     ret (<[output_key_generated_sparql self := generated_valid_sparql]>
            (<[output_key_answer self := result]> ∅))).

(** *** The properties [input_keys] and [output_keys] *)

Definition input_keys : list string := [input_key self].

Definition output_keys : list string :=
  let _output_keys := [output_key_answer self; output_key_generated_sparql self] in
  _output_keys.

End Chain.

Arguments St : clear implicits.
Arguments M : clear implicits.

(** ** Scripted collaborators, to run the chain on concrete inputs *)
Module Script.

Definition bindings1 : Bindings :=
  mkBindings ["a"; "b"]
    [[("a", mkValue "a" "1" "literal" None None);
      ("b", mkValue "b" "2" "literal" None None)]].

Definition rows1 : QueryResults := WithBindings bindings1.

(** The built-in [repr] on a [str] of ASCII characters, which the keys of
    the scripts are: between apostrophes, or between double quotes when the
    string holds an apostrophe and no double quote; the quote in use and the
    backslash escaped, tab, line feed and carriage return by their letter,
    the other control characters by their two hexadecimal digits.  A byte
    outside ASCII is copied. *)
Fixpoint holds (c : ascii) (s : string) : bool :=
  match s with
  | EmptyString => false
  | String c' s' => Ascii.eqb c c' || holds c s'
  end.

Fixpoint repr_body (quote : ascii) (s : string) : string :=
  match s with
  | EmptyString => ""
  | String c s' =>
      let n := N_of_ascii c in
      (if Ascii.eqb c quote || Ascii.eqb c backslash then String backslash (String c "")
       else if (n =? 9)%N then String backslash "t"
       else if (n =? 10)%N then String backslash "n"
       else if (n =? 13)%N then String backslash "r"
       else if ((n <? 32) || (n =? 127))%N then
         String backslash
           (String "x" (String (hex_digit (n / 16)) (String (hex_digit (n mod 16)) "")))
       else String c "")
      +:+ repr_body quote s'
  end.

Definition repr_ascii (s : string) : string :=
  let quote := if holds "'" s && negb (holds dquote s) then dquote else "'"%char in
  String quote (repr_body quote s +:+ String quote "").

(** The world counts the calls made to the repair chain; [repair w] is the
    answer of the repair chain to its call number [w + 1]. *)
Definition make (N : Z) (endpoint : string -> result QueryResults)
    (repair : nat -> result string) : OntotextGraphDBQAChain nat unit :=
  {| graph_get_schema := fun _ => "SCHEMA";
     graph_exec_query := fun q w => (endpoint q, w);
     sparql_generation_chain := fun _ _ w => (Ok "BAD0", w);
     sparql_fix_chain := fun _ _ _ w => (repair w, S w);
     max_fix_retries := N;
     qa_chain := fun _ context w => (Ok ("ANSWER to " +:+ context), w);
     input_key := "question";
     output_key_answer := "answer";
     output_key_generated_sparql := "generated_sparql";
     time_time := fun w => (tt, w);
     format_seconds := fun _ _ => "0.00";
     repr := repr_ascii |}.

(** An endpoint that accepts the query [GOOD] alone. *)
Definition picky (q : string) : result QueryResults :=
  if String.eqb q "GOOD" then Ok rows1 else Err (Exn QueryBadFormed ("bad: " +:+ q)).

(** The repair chain finds [GOOD] at its call number [good_at]. *)
Definition chain (N : Z) (good_at : nat) : OntotextGraphDBQAChain nat unit :=
  make N picky (fun w => Ok (if Nat.eqb (S w) good_at then "GOOD" else "BAD")).

(** No query is ever accepted. *)
Definition hopeless (N : Z) : OntotextGraphDBQAChain nat unit :=
  make N (fun q => Err (Exn QueryBadFormed ("bad: " +:+ q))) (fun _ => Ok "BAD").

(** The endpoint refuses the credentials. *)
Definition locked (N : Z) : OntotextGraphDBQAChain nat unit :=
  make N (fun _ => Err (Exn Unauthorized "401")) (fun _ => Ok "BAD").

Definition boom : exn := Exn QueryBadFormed "boom".

(** The first call of the repair chain itself raises a [QueryBadFormed];
    the second finds [GOOD]. *)
Definition flaky : OntotextGraphDBQAChain nat unit :=
  make 2 picky (fun w => if Nat.eqb w 0 then Err boom else Ok "GOOD").

(** With a budget of two, the repair chain returns a query the endpoint
    rejects, then raises a [QueryBadFormed] itself. *)
Definition spent : OntotextGraphDBQAChain nat unit :=
  make 2 picky (fun w => if Nat.eqb w 0 then Ok "BAD" else Err boom).

(** With a budget of one, the one call of the repair chain raises a
    [QueryBadFormed] itself. *)
Definition stubborn : OntotextGraphDBQAChain nat unit :=
  make 1 picky (fun _ => Err boom).

Definition down : exn := Exn OtherException "model down".

(** The second call of the repair chain raises an exception of the
    language model. *)
Definition broken : OntotextGraphDBQAChain nat unit :=
  make 3 picky (fun w => if Nat.eqb w 0 then Ok "BAD" else Err down).

Definition start : St nat := mkSt 0%nat [].

(** [rows1] with other types and languages for the same names and values. *)
Definition bindings1_typed : Bindings :=
  mkBindings ["b"; "a"]
    [[("a", mkValue "a" "1" "typed-literal" None (Some "xsd:integer"));
      ("b", mkValue "b" "2" "literal" (Some "en") None)]].

Definition quoted (s : string) : string := String dquote (s +:+ String dquote "").

(** The text of the flat encoding of [rows1]: one single-key object per
    binding. *)
Definition flat_text : string :=
  "[{" +:+ quoted "a" +:+ ": " +:+ quoted "1" +:+ "}, {"
       +:+ quoted "b" +:+ ": " +:+ quoted "2" +:+ "}]".

Definition question : gmap string string := {[ "question" := "How many triples exist?" ]}.

(** All the collaborators and both output keys chosen freely; the world
    counts the calls of the repair chain as in [make]. *)
Definition build (N : Z) (endpoint : string -> result QueryResults)
    (repair : nat -> result string) (generation qa : result string)
    (key_answer key_generated_sparql : string) : OntotextGraphDBQAChain nat unit :=
  {| graph_get_schema := fun _ => "SCHEMA";
     graph_exec_query := fun q w => (endpoint q, w);
     sparql_generation_chain := fun _ _ w => (generation, w);
     sparql_fix_chain := fun _ _ _ w => (repair w, S w);
     max_fix_retries := N;
     qa_chain := fun _ _ w => (qa, w);
     input_key := "question";
     output_key_answer := key_answer;
     output_key_generated_sparql := key_generated_sparql;
     time_time := fun w => (tt, w);
     format_seconds := fun _ _ => "0.00";
     repr := repr_ascii |}.

Definition overloaded : exn := Exn OtherException "rate limit".

(** The language model fails when asked to generate the query. *)
Definition tongue_tied : OntotextGraphDBQAChain nat unit :=
  build 5 picky (fun _ => Ok "GOOD") (Err overloaded) (Ok "ANSWER")
    "answer" "generated_sparql".

(** The language model fails when asked to phrase the answer. *)
Definition mute : OntotextGraphDBQAChain nat unit :=
  build 5 picky (fun _ => Ok "GOOD") (Ok "GOOD") (Err overloaded)
    "answer" "generated_sparql".

(** Both results are to be returned under the one key [output]. *)
Definition one_key : OntotextGraphDBQAChain nat unit :=
  build 5 picky (fun _ => Ok "GOOD") (Ok "GOOD") (Ok "ANSWER") "output" "output".

(** The repaired query is well formed, but the endpoint has no room for it. *)
Definition cramped : OntotextGraphDBQAChain nat unit :=
  make 3
    (fun q => if String.eqb q "LONG" then Err (Exn URITooLong "414")
              else Err (Exn QueryBadFormed ("bad: " +:+ q)))
    (fun _ => Ok "LONG").

(** The endpoint answers with a [dict], as it does when the results are
    converted rather than wrapped. *)
Definition raw : OntotextGraphDBQAChain nat unit :=
  build 5 (fun _ => Ok (WithoutBindings "dict")) (fun _ => Ok "GOOD") (Ok "GOOD")
    (Ok "ANSWER") "answer" "generated_sparql".

(** A value of three code points outside ASCII, by the bytes of its UTF-8
    encoding: U+00E9 in two bytes, U+20AC in three, U+1F600 in four. *)
Definition accented : string :=
  string_of_list_ascii
    (map ascii_of_N [195; 169; 226; 130; 172; 240; 159; 152; 128]%N).

Definition bindings_accented : Bindings :=
  mkBindings ["v"] [[("v", mkValue "v" accented "literal" None None)]].

(** The text of [bindings_accented]: the three code points escaped, the
    last one as its two surrogates. *)
Definition escaped_text : string :=
  "[{" +:+ quoted "v" +:+ ": "
       +:+ quoted (String backslash "u00e9" +:+ String backslash "u20ac"
                   +:+ String backslash "ud83d" +:+ String backslash "ude00")
       +:+ "}]".

(** An input mapping without the key [question]. *)
Definition off_topic : gmap string string := {[ "query" := "How many triples exist?" ]}.

(** The bindings of [rows1], one row each. *)
Definition bindings1_split : Bindings :=
  mkBindings ["a"; "b"]
    [[("a", mkValue "a" "1" "literal" None None)];
     [("b", mkValue "b" "2" "literal" None None)]].

(** Two rows, no binding in either. *)
Definition bindings_unbound : Bindings := mkBindings ["a"] [[]; []].

End Script.


(** ** Reading a trace *)

Definition is_fix (ev : event) : bool :=
  match ev with fix_invoke _ _ _ _ => true | _ => false end.

Definition is_exec (ev : event) : bool :=
  match ev with exec_query _ _ => true | _ => false end.

Definition is_qa (ev : event) : bool :=
  match ev with qa_invoke _ _ _ => true | _ => false end.

Fixpoint count (p : event -> bool) (t : list event) : nat :=
  match t with
  | [] => 0%nat
  | ev :: t' => ((if p ev then 1 else 0) + count p t')%nat
  end.

(** The queries the repair chain returned, in order. *)
Fixpoint repaired (t : list event) : list string :=
  match t with
  | [] => []
  | fix_invoke _ _ _ (Ok q) :: t' => q :: repaired t'
  | _ :: t' => repaired t'
  end.

(** The answer of the endpoint to the last execution recorded. *)
Fixpoint last_execution (t : list event) : option (result QueryResults) :=
  match t with
  | [] => None
  | ev :: t' =>
      match last_execution t' with
      | Some r => Some r
      | None => match ev with exec_query _ r => Some r | _ => None end
      end
  end.

(** The texts and calls of the chain's steps, as they appear in a trace. *)
Definition retry_text (N : Z) (l : locals) : event :=
  on_text ("Retrying to generate the query " +:+ pretty (retries l) +:+ "/" +:+ pretty N) red.

Definition bad_formed_text (e : exn) : event :=
  on_text ("QueryBadFormed (status code 400): " +:+ exn_str e) red.

Definition attempt (q : string) (r : result QueryResults) : list event :=
  [on_text "Generated query:" None; on_text q None; exec_query q r].

Definition repair_call (l : locals) (schema : string) (r : result string) : event :=
  fix_invoke (error_message l) (generated_sparql l) schema r.

Definition asked (prompt schema : string) (r : result string) : list event :=
  [on_text "User question:" green; on_text prompt green;
   generation_invoke prompt schema r].

Definition answered (prompt context : string) (r : result string) : list event :=
  [on_text "Query results:" green; on_text context green; qa_invoke prompt context r].

(** The text the handler of the outer [try] statement logs for a failure
    of the first execution; an exception outside [Exception] meets no
    handler and is not logged. *)
Definition failure_text (e : exn) : list event :=
  match exn_cls e with
  | QueryBadFormed => [bad_formed_text e]
  | Unauthorized =>
      [on_text ("Unauthorized (status code 401): " +:+ exn_str e) red]
  | EndPointNotFound =>
      [on_text ("EndPointNotFound (status code 404): " +:+ exn_str e) red]
  | URITooLong =>
      [on_text ("URITooLong (status code 414): " +:+ exn_str e) red]
  | EndPointInternalError =>
      [on_text ("EndPointInternalError (status code 500): " +:+ exn_str e) red]
  | HTTPError status =>
      [on_text ("HTTPError (status code " +:+ pretty status +:+ "): " +:+ exn_str e) red]
  | OtherException => [on_text ("Exception: " +:+ exn_str e) red]
  | BaseExceptionOnly => []
  end.

(** How [_execute_query] ends, given how its [try] statement ended. *)
Definition conclude {W : Type} (out : result (completion Executed) * locals * St W)
  : result Executed * St W :=
  match out with
  | (Ok (Returned r), _, s) => (Ok r, s)
  | (Ok Normal, _, s) =>
      (Err plain_Exception,
       mkSt (world s) (trace s ++ [on_text "Unable to execute query" red]))
  | (Err e, _, s) => (Err e, s)
  end.

(** ** More readings of a trace *)

Definition is_generation (ev : event) : bool :=
  match ev with generation_invoke _ _ _ => true | _ => false end.

(** The queries sent to the endpoint, in order. *)
Fixpoint executed_queries (t : list event) : list string :=
  match t with
  | [] => []
  | exec_query q _ :: t' => q :: executed_queries t'
  | _ :: t' => executed_queries t'
  end.

(** [raises e ev]: the event is a call of a collaborator that raised [e]. *)
Definition raises (e : exn) (ev : event) : Prop :=
  match ev with
  | generation_invoke _ _ (Err e') => e' = e
  | exec_query _ (Err e') => e' = e
  | fix_invoke _ _ _ (Err e') => e' = e
  | qa_invoke _ _ (Err e') => e' = e
  | _ => False
  end.

(** The message of the failure raised last by the endpoint or by the repair
    chain, and the query executed last, after one more event. *)
Definition message_after (em : option string) (ev : event) : option string :=
  match ev with
  | exec_query _ (Err e) => Some (exn_str e)
  | fix_invoke _ _ _ (Err e) => Some (exn_str e)
  | _ => em
  end.

Definition query_after (q : option string) (ev : event) : option string :=
  match ev with
  | exec_query q' _ => Some q'
  | _ => q
  end.

(** [well_fed schema em q t]: with [em] the message of the last failure and
    [q] the last query executed before [t], every call of the repair chain
    in [t] is given the message of the failure raised last before it, the
    query executed last before it, and [schema]. *)
Fixpoint well_fed (schema : string) (em q : option string) (t : list event) : Prop :=
  match t with
  | [] => True
  | ev :: t' =>
      match ev with
      | fix_invoke em' q' schema' _ => em = Some em' /\ q = Some q' /\ schema' = schema
      | _ => True
      end /\
      well_fed schema (message_after em ev) (query_after q ev) t'
  end.

(** The characters [json.dumps] leaves in its output: space to tilde. *)
Definition printable (c : ascii) : bool :=
  ((32 <=? N_of_ascii c) && (N_of_ascii c <=? 126))%N.

(** The characters [json.dumps] copies as they are. *)
Definition plain (c : ascii) : bool :=
  printable c && negb (N_of_ascii c =? 34)%N && negb (N_of_ascii c =? 92)%N.

Fixpoint string_forall (p : ascii -> bool) (s : string) : bool :=
  match s with
  | EmptyString => true
  | String c s' => p c && string_forall p s'
  end.

(** ** Failed turns of the repair loop

    Both relations describe one turn of the body by what the collaborators
    do in it, with the loop at local variables [l] and state [s].

    [rejected_repair]: the repair chain returns a query, the endpoint rejects
    it as malformed, and budget is left for another turn. *)
Inductive rejected_repair {W Instant : Type} (self : OntotextGraphDBQAChain W Instant)
    (schema : string) : locals * St W -> locals * St W -> Prop :=
| rejected_repair_intro l s q w1 e w2 :
    retries l + 1 <= max_fix_retries self ->
    sparql_fix_chain self (error_message l) (generated_sparql l) schema (world s)
      = (Ok q, w1) ->
    graph_exec_query self q w1 = (Err e, w2) ->
    exn_cls e = QueryBadFormed ->
    rejected_repair self schema (l, s)
      (mkLocals (retries l + 1) (exn_str e) q,
       mkSt w2 (trace s ++ retry_text (max_fix_retries self) l
                         :: repair_call l schema (Ok q)
                         :: attempt q (Err e) ++ [bad_formed_text e])).

(** [failed_turn]: a turn that ends in the handler of [QueryBadFormed] with
    budget left, because the endpoint rejected the repaired query or because
    the call of the repair chain itself raised [QueryBadFormed]. *)
Inductive failed_turn {W Instant : Type} (self : OntotextGraphDBQAChain W Instant)
    (schema : string) : locals * St W -> locals * St W -> Prop :=
| failed_execution c c' :
    rejected_repair self schema c c' ->
    failed_turn self schema c c'
| failed_repair_call l s e w1 :
    retries l + 1 <= max_fix_retries self ->
    sparql_fix_chain self (error_message l) (generated_sparql l) schema (world s)
      = (Err e, w1) ->
    exn_cls e = QueryBadFormed ->
    failed_turn self schema (l, s)
      (mkLocals (retries l + 1) (exn_str e) (generated_sparql l),
       mkSt w1 (trace s ++ [retry_text (max_fix_retries self) l;
                            repair_call l schema (Err e);
                            bad_formed_text e])).

(** [exhausting_turn self schema (l, s) e s']: the turn that uses up the
    budget.  With [retries] at [max_fix_retries], the endpoint rejects the
    repaired query as malformed, or the call of the repair chain itself
    raises a [QueryBadFormed]; [e] is that failure and [s'] the state after
    it is reported. *)
Inductive exhausting_turn {W Instant : Type} (self : OntotextGraphDBQAChain W Instant)
    (schema : string) : locals * St W -> exn -> St W -> Prop :=
| exhausting_execution l s q w1 e w2 :
    retries l = max_fix_retries self ->
    sparql_fix_chain self (error_message l) (generated_sparql l) schema (world s)
      = (Ok q, w1) ->
    graph_exec_query self q w1 = (Err e, w2) ->
    exn_cls e = QueryBadFormed ->
    exhausting_turn self schema (l, s) e
      (mkSt w2 (trace s ++ retry_text (max_fix_retries self) l
                         :: repair_call l schema (Ok q)
                         :: attempt q (Err e) ++ [bad_formed_text e]))
| exhausting_repair_call l s e w1 :
    retries l = max_fix_retries self ->
    sparql_fix_chain self (error_message l) (generated_sparql l) schema (world s)
      = (Err e, w1) ->
    exn_cls e = QueryBadFormed ->
    exhausting_turn self schema (l, s) e
      (mkSt w1 (trace s ++ [retry_text (max_fix_retries self) l;
                            repair_call l schema (Err e);
                            bad_formed_text e])).

(** The failure raised last by the endpoint or by the repair chain. *)
Fixpoint last_failure (t : list event) : option exn :=
  match t with
  | [] => None
  | ev :: t' =>
      match last_failure t' with
      | Some e => Some e
      | None =>
          match ev with
          | exec_query _ (Err e) => Some e
          | fix_invoke _ _ _ (Err e) => Some e
          | _ => None
          end
      end
  end.

(** The same chain with another repair budget. *)
Definition with_max_fix_retries {W Instant : Type} (N : Z)
    (self : OntotextGraphDBQAChain W Instant) : OntotextGraphDBQAChain W Instant :=
  {| graph_get_schema := graph_get_schema self;
     graph_exec_query := graph_exec_query self;
     sparql_generation_chain := sparql_generation_chain self;
     sparql_fix_chain := sparql_fix_chain self;
     max_fix_retries := N;
     qa_chain := qa_chain self;
     input_key := input_key self;
     output_key_answer := output_key_answer self;
     output_key_generated_sparql := output_key_generated_sparql self;
     time_time := time_time self;
     format_seconds := format_seconds self;
     repr := repr self |}.

Section Properties.
Context {W Instant : Type} (self : OntotextGraphDBQAChain W Instant).

Implicit Types (l : locals) (s : St W) (e : exn) (schema q : string).

Ltac step_stm :=
  unfold while_body, try_statement, bind, try_except, get, emit, lift, call,
    assign, ret, raise; cbn.

Ltac trace_eq :=
  rewrite <- ?app_assoc; cbn [app]; reflexivity.

Lemma count_app p (t u : list event) : count p (t ++ u) = (count p t + count p u)%nat.
Proof. induction t as [|ev t IH]; cbn; [reflexivity | rewrite IH; lia]. Qed.

Lemma repaired_app (t u : list event) : repaired (t ++ u) = repaired t ++ repaired u.
Proof.
  induction t as [|ev t IH]; cbn; [reflexivity|].
  destruct ev as [| | |? ? ? [?|?]|]; cbn; rewrite IH; reflexivity.
Qed.

Lemma last_execution_app (t u : list event) :
  last_execution (t ++ u) =
  match last_execution u with Some r => Some r | None => last_execution t end.
Proof.
  induction t as [|ev t IH]; cbn.
  - destruct (last_execution u); reflexivity.
  - rewrite IH. destruct (last_execution u); reflexivity.
Qed.

Lemma while_loop_step schema l s :
  while_loop self schema l s =
  if (retries l <=? max_fix_retries self)%Z then
    match while_body self schema l s with
    | (Ok Normal, l', s') => while_loop self schema l' s'
    | finished => finished
    end
  else (Ok Normal, l, s).
Proof.
  funelim (while_loop self schema l s);
    repeat match goal with
           | H : ?c = _ |- context [if ?c then _ else _] => rewrite H
           | H : ?b = _ |- context [let (_, _) := ?b in _] => rewrite H
           end; reflexivity.
Qed.

(** *** The five ways a turn of the body can go *)

Lemma body_repair_raises schema l s e w1 :
  sparql_fix_chain self (error_message l) (generated_sparql l) schema (world s)
    = (Err e, w1) ->
  isinstance e ExQueryBadFormed = false ->
  while_body self schema l s =
  (Err e, l,
   mkSt w1 (trace s ++ [retry_text (max_fix_retries self) l; repair_call l schema (Err e)])).
Proof.
  intros Hfix Hcls. step_stm. rewrite Hfix. cbn. rewrite Hcls.
  unfold retry_text, repair_call. trace_eq.
Qed.

Lemma body_repair_bad_formed schema l s e w1 :
  sparql_fix_chain self (error_message l) (generated_sparql l) schema (world s)
    = (Err e, w1) ->
  isinstance e ExQueryBadFormed = true ->
  while_body self schema l s =
  (if retries l + 1 >? max_fix_retries self then Err e else Ok Normal,
   mkLocals (retries l + 1) (exn_str e) (generated_sparql l),
   mkSt w1 (trace s ++ [retry_text (max_fix_retries self) l;
                        repair_call l schema (Err e);
                        bad_formed_text e])).
Proof.
  intros Hfix Hcls. step_stm. rewrite Hfix. cbn. rewrite Hcls.
  unfold retry_text, repair_call, bad_formed_text, set_error_message, set_retries. cbn.
  destruct (retries l + 1 >? max_fix_retries self); trace_eq.
Qed.

Lemma body_executes schema l s q w1 rs w2 :
  sparql_fix_chain self (error_message l) (generated_sparql l) schema (world s)
    = (Ok q, w1) ->
  graph_exec_query self q w1 = (Ok rs, w2) ->
  while_body self schema l s =
  (Ok (Returned (q, rs)), set_generated_sparql q l,
   mkSt w2 (trace s ++ retry_text (max_fix_retries self) l
                     :: repair_call l schema (Ok q) :: attempt q (Ok rs))).
Proof.
  intros Hfix Hexec. step_stm. rewrite Hfix. cbn. rewrite Hexec.
  unfold retry_text, repair_call, attempt. trace_eq.
Qed.

Lemma body_execution_raises schema l s q w1 e w2 :
  sparql_fix_chain self (error_message l) (generated_sparql l) schema (world s)
    = (Ok q, w1) ->
  graph_exec_query self q w1 = (Err e, w2) ->
  isinstance e ExQueryBadFormed = false ->
  while_body self schema l s =
  (Err e, set_generated_sparql q l,
   mkSt w2 (trace s ++ retry_text (max_fix_retries self) l
                     :: repair_call l schema (Ok q) :: attempt q (Err e))).
Proof.
  intros Hfix Hexec Hcls. step_stm. rewrite Hfix. cbn. rewrite Hexec. cbn. rewrite Hcls.
  unfold retry_text, repair_call, attempt. trace_eq.
Qed.

Lemma body_execution_bad_formed schema l s q w1 e w2 :
  sparql_fix_chain self (error_message l) (generated_sparql l) schema (world s)
    = (Ok q, w1) ->
  graph_exec_query self q w1 = (Err e, w2) ->
  isinstance e ExQueryBadFormed = true ->
  while_body self schema l s =
  (if retries l + 1 >? max_fix_retries self then Err e else Ok Normal,
   mkLocals (retries l + 1) (exn_str e) q,
   mkSt w2 (trace s ++ retry_text (max_fix_retries self) l
                     :: repair_call l schema (Ok q)
                     :: attempt q (Err e) ++ [bad_formed_text e])).
Proof.
  intros Hfix Hexec Hcls. step_stm. rewrite Hfix. cbn. rewrite Hexec. cbn. rewrite Hcls.
  unfold retry_text, repair_call, attempt, bad_formed_text, set_generated_sparql,
    set_error_message, set_retries. cbn.
  destruct (retries l + 1 >? max_fix_retries self); trace_eq.
Qed.

(** *** Induction on the turns of the loop *)

Lemma while_loop_ind
    (P : locals -> St W -> result (completion Executed) * locals * St W -> Prop) schema :
  (forall l s, max_fix_retries self < retries l -> P l s (Ok Normal, l, s)) ->
  (forall l s r l' s',
      retries l <= max_fix_retries self ->
      while_body self schema l s = (r, l', s') -> r <> Ok Normal ->
      P l s (r, l', s')) ->
  (forall l s l' s' out,
      retries l <= max_fix_retries self ->
      while_body self schema l s = (Ok Normal, l', s') ->
      P l' s' out -> P l s out) ->
  forall l s, P l s (while_loop self schema l s).
Proof.
  intros Hexit Hstop Hturn l s.
  funelim (while_loop self schema l s);
    match goal with
    | H : (_ <=? _)%Z = false |- _ => pose proof (proj1 (Z.leb_gt _ _) H)
    | H : (_ <=? _)%Z = true |- _ => pose proof (proj1 (Z.leb_le _ _) H)
    end.
  - apply Hexit. assumption.
  - eapply Hturn; [eassumption | eassumption |].
    match goal with IH : forall Q, _ |- _ => apply IH; assumption end.
  - apply Hstop; [assumption | assumption | discriminate].
  - apply Hstop; [assumption | assumption | discriminate].
Qed.

Lemma isinstance_QueryBadFormed e :
  isinstance e ExQueryBadFormed = true <-> exn_cls e = QueryBadFormed.
Proof. unfold isinstance. destruct (exn_cls e); cbn; split; congruence. Qed.

Lemma not_isinstance_QueryBadFormed e :
  isinstance e ExQueryBadFormed = false <-> exn_cls e <> QueryBadFormed.
Proof. unfold isinstance. destruct (exn_cls e); cbn; split; congruence. Qed.

(** What a turn of the body adds to the trace, however the collaborators
    behave: one call of the repair chain, at most one execution, at most one
    repaired query, no call of the answer chain. *)
Lemma body_trace schema l s r l' s' :
  while_body self schema l s = (r, l', s') ->
  exists t, trace s' = trace s ++ t /\
            count is_fix t = 1%nat /\ (count is_exec t <= 1)%nat /\
            count is_qa t = 0%nat /\ (length (repaired t) <= 1)%nat.
Proof.
  destruct (sparql_fix_chain self (error_message l) (generated_sparql l) schema (world s))
    as [[q|e] w1] eqn:Hfix.
  - destruct (graph_exec_query self q w1) as [[rs|e] w2] eqn:Hexec.
    + rewrite (body_executes _ _ _ _ _ _ _ Hfix Hexec). intros [= <- <- <-].
      eexists; split; [reflexivity|]. cbn. lia.
    + destruct (isinstance e ExQueryBadFormed) eqn:Hcls.
      * rewrite (body_execution_bad_formed _ _ _ _ _ _ _ Hfix Hexec Hcls).
        intros [= <- <- <-]. eexists; split; [reflexivity|]. cbn. lia.
      * rewrite (body_execution_raises _ _ _ _ _ _ _ Hfix Hexec Hcls).
        intros [= <- <- <-]. eexists; split; [reflexivity|]. cbn. lia.
  - destruct (isinstance e ExQueryBadFormed) eqn:Hcls.
    + rewrite (body_repair_bad_formed _ _ _ _ _ Hfix Hcls).
      intros [= <- <- <-]. eexists; split; [reflexivity|]. cbn. lia.
    + rewrite (body_repair_raises _ _ _ _ _ Hfix Hcls).
      intros [= <- <- <-]. eexists; split; [reflexivity|]. cbn. lia.
Qed.

(** What the whole loop adds to the trace: at most as many repairs as the
    budget from [retries l] on allows. *)
Lemma loop_trace schema l s :
  exists t, trace (snd (while_loop self schema l s)) = trace s ++ t /\
            (Z.of_nat (count is_fix t) <= Z.max 0 (max_fix_retries self + 1 - retries l)) /\
            (count is_exec t <= count is_fix t)%nat /\
            count is_qa t = 0%nat /\
            (length (repaired t) <= count is_fix t)%nat.
Proof.
  apply (while_loop_ind
           (fun l s out =>
              exists t, trace (snd out) = trace s ++ t /\
                (Z.of_nat (count is_fix t) <= Z.max 0 (max_fix_retries self + 1 - retries l)) /\
                (count is_exec t <= count is_fix t)%nat /\
                count is_qa t = 0%nat /\
                (length (repaired t) <= count is_fix t)%nat) schema).
  - intros l0 s0 _. exists []. cbn. rewrite app_nil_r. repeat split; lia.
  - intros l0 s0 r l' s' Hle Hbody _.
    destruct (body_trace _ _ _ _ _ _ Hbody) as (t & Ht & Hf & He & Hq & Hr).
    exists t. cbn. repeat split; try assumption; lia.
  - intros l0 s0 l' s' out Hle Hbody (t2 & Ht2 & Hf2 & He2 & Hq2 & Hr2).
    destruct (body_trace _ _ _ _ _ _ Hbody) as (t1 & Ht1 & Hf1 & He1 & Hq1 & Hr1).
    apply while_body_Normal in Hbody. destruct Hbody as [Hret _].
    exists (t1 ++ t2). rewrite Ht2, Ht1, <- app_assoc.
    rewrite !count_app, repaired_app, length_app.
    repeat split; try lia.
Qed.

(** The loop entered with budget left never runs to its end: every turn
    returns, raises, or leaves budget for the next one. *)
Lemma loop_not_Normal schema l s :
  retries l <= max_fix_retries self ->
  fst (fst (while_loop self schema l s)) <> Ok Normal.
Proof.
  apply (while_loop_ind
           (fun l s out => retries l <= max_fix_retries self ->
                           fst (fst out) <> Ok Normal) schema).
  - intros l0 s0 Hgt Hle. lia.
  - intros l0 s0 r l' s' _ _ Hr _. exact Hr.
  - intros l0 s0 l' s' out _ Hbody IH _. apply IH.
    apply while_body_Normal in Hbody. tauto.
Qed.

(** *** The [try] statement and the end of [_execute_query] *)

Lemma execute_query_conclude q schema s :
  _execute_query self q schema s = conclude (try_statement self schema (mkLocals 0 "" q) s).
Proof.
  unfold _execute_query, run, bind, conclude.
  destruct (try_statement self schema (mkLocals 0 "" q) s) as [[[[|r]|e] l'] s']; reflexivity.
Qed.

Lemma try_executes q schema l s rs w1 :
  generated_sparql l = q ->
  graph_exec_query self q (world s) = (Ok rs, w1) ->
  try_statement self schema l s =
  (Ok (Returned (q, rs)), l, mkSt w1 (trace s ++ attempt q (Ok rs))).
Proof.
  intros <- Hexec. step_stm. rewrite Hexec. unfold attempt. trace_eq.
Qed.

Lemma try_raises q schema l s e w1 :
  generated_sparql l = q ->
  graph_exec_query self q (world s) = (Err e, w1) ->
  exn_cls e <> QueryBadFormed ->
  try_statement self schema l s =
  (Err e, l, mkSt w1 (trace s ++ attempt q (Err e) ++ failure_text e)).
Proof.
  intros <- Hexec Hcls. step_stm. rewrite Hexec. cbn.
  unfold isinstance, failure_text, exn_status, attempt.
  destruct (exn_cls e); try congruence; cbn; trace_eq.
Qed.

Lemma try_bad_formed q schema l s e w1 :
  generated_sparql l = q ->
  graph_exec_query self q (world s) = (Err e, w1) ->
  exn_cls e = QueryBadFormed ->
  try_statement self schema l s =
  if 1 >? max_fix_retries self then
    (Err e, mkLocals 1 (exn_str e) q,
     mkSt w1 (trace s ++ attempt q (Err e) ++ [bad_formed_text e]))
  else
    while_loop self schema (mkLocals 1 (exn_str e) q)
      (mkSt w1 (trace s ++ attempt q (Err e) ++ [bad_formed_text e])).
Proof.
  intros <- Hexec Hcls. apply isinstance_QueryBadFormed in Hcls.
  step_stm. rewrite Hexec. cbn. rewrite Hcls.
  unfold set_error_message, set_retries, attempt, bad_formed_text. cbn.
  destruct (1 >? max_fix_retries self); cbn.
  - trace_eq.
  - rewrite <- ?app_assoc. cbn [app].
    destruct (while_loop self schema _ _) as [[[c|e'] l'] s']; reflexivity.
Qed.

(** *** Failed turns leave the loop where it was, one retry later *)

Lemma failed_turn_loop schema c c' :
  failed_turn self schema c c' ->
  while_loop self schema (fst c) (snd c) = while_loop self schema (fst c') (snd c').
Proof.
  intros Hturn.
  destruct Hturn as [c c' [l s q w1 e w2 Hle Hfix Hexec Hcls] | l s e w1 Hle Hfix Hcls].
  all: apply isinstance_QueryBadFormed in Hcls.
  all: cbn [fst snd]; rewrite (while_loop_step schema l s).
  all: destruct (Z.leb_spec (retries l) (max_fix_retries self)); [|lia].
  - rewrite (body_execution_bad_formed _ _ _ _ _ _ _ Hfix Hexec Hcls).
    destruct (Z.gtb_spec (retries l + 1) (max_fix_retries self)); [lia | reflexivity].
  - rewrite (body_repair_bad_formed _ _ _ _ _ Hfix Hcls).
    destruct (Z.gtb_spec (retries l + 1) (max_fix_retries self)); [lia | reflexivity].
Qed.

Lemma failed_turns_loop schema k c c' :
  nsteps (failed_turn self schema) k c c' ->
  while_loop self schema (fst c) (snd c) = while_loop self schema (fst c') (snd c').
Proof.
  induction 1 as [|k c1 c2 c3 Hturn _ IH]; [reflexivity|].
  rewrite (failed_turn_loop _ _ _ Hturn). exact IH.
Qed.

Lemma failed_turns_retries schema k c c' :
  nsteps (failed_turn self schema) k c c' ->
  retries (fst c') = retries (fst c) + Z.of_nat k.
Proof.
  induction 1 as [|k c1 c2 c3 Hturn _ IH]; [lia|].
  rewrite IH. destruct Hturn as [c c' []|]; cbn; lia.
Qed.

Lemma failure_text_silent e :
  count is_fix (failure_text e) = 0%nat /\ count is_exec (failure_text e) = 0%nat /\
  count is_qa (failure_text e) = 0%nat /\ repaired (failure_text e) = [] /\
  last_execution (failure_text e) = None.
Proof. unfold failure_text. destruct (exn_cls e); cbn; auto. Qed.

Lemma remove_dups_shorter (qs : list string) : (length (remove_dups qs) <= length qs)%nat.
Proof.
  induction qs as [|q qs IH]; cbn; [lia|].
  destruct (decide_rel elem_of q qs); cbn; lia.
Qed.

(** What the [try] statement adds to the trace, however the collaborators
    behave. *)
Lemma try_trace schema l s :
  exists t, trace (snd (try_statement self schema l s)) = trace s ++ t /\
            (Z.of_nat (count is_fix t) <= Z.max 0 (max_fix_retries self)) /\
            (count is_exec t <= S (count is_fix t))%nat /\
            count is_qa t = 0%nat /\
            (length (repaired t) <= count is_fix t)%nat.
Proof.
  destruct (graph_exec_query self (generated_sparql l) (world s)) as [[rs|e] w1] eqn:Hexec.
  - rewrite (try_executes _ schema _ _ _ _ eq_refl Hexec). cbn [snd trace].
    eexists; split; [reflexivity|]. cbn. lia.
  - destruct (decide (exn_cls e = QueryBadFormed)) as [Hcls|Hcls].
    + rewrite (try_bad_formed _ schema _ _ _ _ eq_refl Hexec Hcls).
      destruct (Z.gtb_spec 1 (max_fix_retries self)).
      * cbn [snd trace]. eexists; split; [reflexivity|]. cbn. lia.
      * destruct (loop_trace schema (mkLocals 1 (exn_str e) (generated_sparql l))
                    (mkSt w1 (trace s ++ attempt (generated_sparql l) (Err e)
                                      ++ [bad_formed_text e])))
          as (t & Ht & Hf & He & Hq & Hr).
        cbn [retries trace] in Ht, Hf.
        exists ((attempt (generated_sparql l) (Err e) ++ [bad_formed_text e]) ++ t).
        rewrite Ht, !count_app, repaired_app, length_app, <- !app_assoc. cbn.
        repeat split; lia.
    + rewrite (try_raises _ schema _ _ _ _ eq_refl Hexec Hcls). cbn [snd trace].
      destruct (failure_text_silent e) as (Hf & He & Hq & Hr & _).
      eexists; split; [reflexivity|].
      rewrite !count_app, repaired_app, Hf, He, Hq, Hr. cbn. lia.
Qed.

(** *** [_call] around [_execute_query] *)

Lemma call_execute_raises inputs s prompt t0 w1 q0 w2 e s' :
  inputs !! input_key self = Some prompt ->
  time_time self (world s) = (t0, w1) ->
  sparql_generation_chain self prompt (graph_get_schema self (world s)) w1 = (Ok q0, w2) ->
  _execute_query self q0 (graph_get_schema self (world s))
    (mkSt w2 (trace s ++ asked prompt (graph_get_schema self (world s)) (Ok q0)))
    = (Err e, s') ->
  _call self inputs s = (Err e, s').
Proof.
  intros Hin Hclock Hgen Hrun.
  unfold _call, run, bind, lift, read_schema, read_clock, call, emit, ret, raise.
  rewrite Hin. cbn. rewrite Hclock. cbn. rewrite Hgen.
  unfold asked in Hrun. rewrite <- ?app_assoc. cbn [app]. rewrite Hrun. reflexivity.
Qed.

Lemma call_answers inputs s prompt t0 w1 q0 w2 q rs s1 context answer w3 t1 w4 :
  inputs !! input_key self = Some prompt ->
  time_time self (world s) = (t0, w1) ->
  sparql_generation_chain self prompt (graph_get_schema self (world s)) w1 = (Ok q0, w2) ->
  _execute_query self q0 (graph_get_schema self (world s))
    (mkSt w2 (trace s ++ asked prompt (graph_get_schema self (world s)) (Ok q0)))
    = (Ok (q, rs), s1) ->
  query_results_to_json rs = Ok context ->
  qa_chain self prompt context (world s1) = (Ok answer, w3) ->
  time_time self w3 = (t1, w4) ->
  _call self inputs s =
  (Ok (<[output_key_generated_sparql self := q]> (<[output_key_answer self := answer]> ∅)),
   mkSt w4 (trace s1 ++ answered prompt context (Ok answer)
              ++ [on_text ("Finished chain for " +:+ format_seconds self t1 t0
                           +:+ " seconds") None])).
Proof.
  intros Hin Hclock Hgen Hrun Hjson Hqa Hstop.
  unfold _call, run, bind, lift, read_schema, read_clock, returns, call, emit, ret, raise.
  rewrite Hin. cbn. rewrite Hclock. cbn. rewrite Hgen.
  unfold asked in Hrun. rewrite <- ?app_assoc. cbn [app]. rewrite Hrun. cbn.
  rewrite Hjson. cbn.
  rewrite Hqa. cbn. rewrite Hstop. cbn. unfold answered. trace_eq.
Qed.

(** *** The turn that uses up the budget *)

Lemma last_failure_app (t u : list event) :
  last_failure (t ++ u) =
  match last_failure u with Some e => Some e | None => last_failure t end.
Proof.
  induction t as [|ev t IH]; cbn.
  - destruct (last_failure u); reflexivity.
  - rewrite IH. destruct (last_failure u); reflexivity.
Qed.

Lemma exhausting_turn_loop schema l s e s' :
  exhausting_turn self schema (l, s) e s' ->
  conclude (while_loop self schema l s) = (Err e, s').
Proof.
  intros Hturn. inversion Hturn as [l0 s0 q w1 e1 w2 Hret Hfix Hexec Hcls
                                   | l0 s0 e1 w1 Hret Hfix Hcls]; subst.
  all: apply isinstance_QueryBadFormed in Hcls.
  all: rewrite while_loop_step.
  all: destruct (Z.leb_spec (retries l) (max_fix_retries self)); [|lia].
  - rewrite (body_execution_bad_formed _ _ _ _ _ _ _ Hfix Hexec Hcls).
    destruct (Z.gtb_spec (retries l + 1) (max_fix_retries self)); [reflexivity | lia].
  - rewrite (body_repair_bad_formed _ _ _ _ _ Hfix Hcls).
    destruct (Z.gtb_spec (retries l + 1) (max_fix_retries self)); [reflexivity | lia].
Qed.

Lemma exhausting_turn_trace schema l s e s' :
  exhausting_turn self schema (l, s) e s' ->
  retries l = max_fix_retries self /\ exn_cls e = QueryBadFormed /\
  exists t, trace s' = trace s ++ t /\
            count is_fix t = 1%nat /\ count is_qa t = 0%nat /\
            last_failure t = Some e /\ last t = Some (bad_formed_text e).
Proof.
  intros Hturn. inversion Hturn; subst.
  all: split; [assumption|]; split; [assumption|].
  all: eexists; split; [reflexivity|]; cbn; auto.
Qed.

Lemma failed_turns_trace schema k c c' :
  nsteps (failed_turn self schema) k c c' ->
  exists t, trace (snd c') = trace (snd c) ++ t /\
            count is_fix t = k /\ count is_qa t = 0%nat.
Proof.
  induction 1 as [c|k c1 c2 c3 Hturn _ (t & Ht & Hf & Hq)].
  - exists []. rewrite app_nil_r. auto.
  - destruct Hturn as [c c' [l s q w1 e w2 _ _ _ _] | l s e w1 _ _ _].
    all: cbn [snd trace] in *.
    all: eexists; rewrite Ht, <- app_assoc; split; [reflexivity|].
    all: rewrite !count_app, Hf, Hq; cbn; auto.
Qed.

(** The [try] statement never runs to its end. *)
Lemma try_not_Normal schema l s :
  fst (fst (try_statement self schema l s)) <> Ok Normal.
Proof.
  destruct (graph_exec_query self (generated_sparql l) (world s)) as [[rs|e] w1] eqn:Hexec.
  - rewrite (try_executes _ schema _ _ _ _ eq_refl Hexec). discriminate.
  - destruct (decide (exn_cls e = QueryBadFormed)) as [Hcls|Hcls].
    + rewrite (try_bad_formed _ schema _ _ _ _ eq_refl Hexec Hcls).
      destruct (Z.gtb_spec 1 (max_fix_retries self)); [discriminate|].
      apply loop_not_Normal. assumption.
    + rewrite (try_raises _ schema _ _ _ _ eq_refl Hexec Hcls). discriminate.
Qed.

Lemma rejected_repairs_failed schema k c c' :
  nsteps (rejected_repair self schema) k c c' ->
  nsteps (failed_turn self schema) k c c'.
Proof.
  induction 1 as [|k c1 c2 c3 Hturn _ IH]; [constructor|].
  eapply nsteps_l; [apply failed_execution; exact Hturn | exact IH].
Qed.

Lemma rejected_repairs_trace schema k c c' :
  nsteps (rejected_repair self schema) k c c' ->
  exists t, trace (snd c') = trace (snd c) ++ t /\ length (repaired t) = k /\
            count is_qa t = 0%nat.
Proof.
  induction 1 as [c|k c1 c2 c3 Hturn _ (t & Ht & Hr & Hq)].
  - exists []. rewrite app_nil_r. auto.
  - destruct Hturn as [l s q w1 e w2 _ _ _ _]. cbn [snd trace] in *.
    eexists. rewrite Ht, <- app_assoc. split; [reflexivity|].
    rewrite repaired_app, count_app, length_app, Hr, Hq. cbn. auto.
Qed.

(** After a malformed first query and [k] failed turns, [_execute_query]
    ends as the loop ends from where those turns left it. *)
Lemma execute_query_after_turns q schema s0 e0 w0 k l s :
  graph_exec_query self q (world s0) = (Err e0, w0) ->
  exn_cls e0 = QueryBadFormed ->
  nsteps (failed_turn self schema) k
    (mkLocals 1 (exn_str e0) q,
     mkSt w0 (trace s0 ++ attempt q (Err e0) ++ [bad_formed_text e0]))
    (l, s) ->
  retries l <= max_fix_retries self ->
  _execute_query self q schema s0 = conclude (while_loop self schema l s).
Proof.
  intros Hexec Hcls Hturns Hle.
  pose proof (failed_turns_retries _ _ _ _ Hturns) as Hret. cbn [fst retries] in Hret.
  rewrite execute_query_conclude,
    (try_bad_formed q schema (mkLocals 0 "" q) s0 e0 w0 eq_refl Hexec Hcls).
  destruct (Z.gtb_spec 1 (max_fix_retries self)); [lia|].
  exact (f_equal conclude (failed_turns_loop _ _ _ _ Hturns)).
Qed.

End Properties.

(** ** The claims about the repair loop *)

Section Claims.
Context {W Instant : Type} (self : OntotextGraphDBQAChain W Instant).

(** C3.  If the first generated query executes successfully, the repair
    chain is not invoked, and [_execute_query] returns the query it was given,
    unchanged, with the result set the endpoint returned: the only things
    done are the two texts and the one execution. *)
Theorem first_query_succeeds q schema s rs w1 :
  graph_exec_query self q (world s) = (Ok rs, w1) ->
  _execute_query self q schema s = (Ok (q, rs), mkSt w1 (trace s ++ attempt q (Ok rs))) /\
  count is_fix (trace (snd (_execute_query self q schema s))) = count is_fix (trace s).
Proof.
  intros Hexec.
  assert (Hrun : _execute_query self q schema s
                 = (Ok (q, rs), mkSt w1 (trace s ++ attempt q (Ok rs)))).
  { rewrite execute_query_conclude,
      (try_executes self q schema (mkLocals 0 "" q) s rs w1 eq_refl Hexec).
    reflexivity. }
  split; [exact Hrun|].
  rewrite Hrun. cbn [snd trace]. rewrite count_app. cbn. lia.
Qed.

(** C2.  If the first execution raises a failure of any class other than
    [QueryBadFormed] (one of the four other SPARQLWrapper classes, an
    [HTTPError], any other exception), [_execute_query] raises that failure
    at once: under every repair budget [N] the repair chain is not invoked
    and the endpoint is called once. *)
Theorem other_failure_propagates q schema s e w1 (N : Z) :
  graph_exec_query self q (world s) = (Err e, w1) ->
  exn_cls e <> QueryBadFormed ->
  let run := _execute_query (with_max_fix_retries N self) q schema s in
  run = (Err e, mkSt w1 (trace s ++ attempt q (Err e) ++ failure_text e)) /\
  count is_fix (trace (snd run)) = count is_fix (trace s) /\
  count is_exec (trace (snd run)) = S (count is_exec (trace s)).
Proof.
  intros Hexec Hcls run.
  assert (Hrun : run = (Err e, mkSt w1 (trace s ++ attempt q (Err e) ++ failure_text e))).
  { unfold run. rewrite execute_query_conclude.
    rewrite (try_raises (with_max_fix_retries N self) q schema (mkLocals 0 "" q) s e w1
               eq_refl Hexec Hcls).
    reflexivity. }
  split; [exact Hrun|].
  destruct (failure_text_silent e) as (Hf & He & _).
  rewrite Hrun. cbn [snd trace]. rewrite !count_app, Hf, He. cbn. lia.
Qed.

(** C1.  With a repair budget [N >= 0], let the first execution raise a
    [QueryBadFormed] and let every turn of the loop end in a
    [QueryBadFormed] too (raised by the execution of the repaired query, or
    by the call of the repair chain), up to the turn that uses up the
    budget.  Then [_execute_query] raises the [QueryBadFormed] of that last
    turn, in the state that turn leaves, after exactly [N] calls of the
    repair chain.  With [N = 0] it raises the failure of the first execution
    with nothing done after it but the text that reports it. *)
Theorem all_malformed_exhausts_budget q schema s e0 w0 :
  0 <= max_fix_retries self ->
  graph_exec_query self q (world s) = (Err e0, w0) ->
  exn_cls e0 = QueryBadFormed ->
  let s0 := mkSt w0 (trace s ++ attempt q (Err e0) ++ [bad_formed_text e0]) in
  (max_fix_retries self = 0 ->
   _execute_query self q schema s = (Err e0, s0) /\
   count is_fix (trace s0) = count is_fix (trace s)) /\
  (forall (k : nat) l sk e s',
      nsteps (failed_turn self schema) k (mkLocals 1 (exn_str e0) q, s0) (l, sk) ->
      exhausting_turn self schema (l, sk) e s' ->
      _execute_query self q schema s = (Err e, s') /\
      exn_cls e = QueryBadFormed /\
      max_fix_retries self = Z.of_nat (S k) /\
      count is_fix (trace s')
      = (count is_fix (trace s) + Z.to_nat (max_fix_retries self))%nat).
Proof.
  intros HN Hexec0 Hcls0 s0. split.
  - intros H0.
    rewrite execute_query_conclude,
      (try_bad_formed self q schema (mkLocals 0 "" q) s e0 w0 eq_refl Hexec0 Hcls0).
    rewrite H0. cbn. split; [reflexivity|].
    fold (attempt q (Err e0)). rewrite !count_app. cbn. lia.
  - intros k l sk e s' Hturns Hlast.
    destruct (exhausting_turn_trace self schema l sk e s' Hlast)
      as (Hret & Hcls & t & Ht & Hf & _).
    pose proof (failed_turns_retries self _ _ _ _ Hturns) as Hk. cbn [fst retries] in Hk.
    destruct (failed_turns_trace self _ _ _ _ Hturns) as (tk & Htk & Hfk & _).
    cbn [snd trace] in Htk.
    split.
    { rewrite (execute_query_after_turns self q schema s e0 w0 k l sk
                 Hexec0 Hcls0 Hturns ltac:(lia)).
      exact (exhausting_turn_loop self schema l sk e s' Hlast). }
    split; [assumption|]. split; [lia|].
    rewrite Ht, Htk. unfold s0. cbn [trace]. rewrite !count_app, Hf, Hfk. cbn. lia.
Qed.

(** C5, as amended.  When the repair budget is used up, every turn having
    ended in a [QueryBadFormed], the failure [_execute_query] raises, and
    [_call] with it, is the [QueryBadFormed] raised last, with its message:
    the one of the last execution, or the one of the last call of the repair
    chain when that call itself raised it.  It is the failure reported last,
    and the answer chain is not called. *)
Theorem exhausted_budget_raises_last_failure inputs s prompt t0 w1 q0 w2 e0 w3 :
  let schema := graph_get_schema self (world s) in
  let s0 := mkSt w2 (trace s ++ asked prompt schema (Ok q0)) in
  let s1 := mkSt w3 (trace s0 ++ attempt q0 (Err e0) ++ [bad_formed_text e0]) in
  inputs !! input_key self = Some prompt ->
  time_time self (world s) = (t0, w1) ->
  sparql_generation_chain self prompt schema w1 = (Ok q0, w2) ->
  graph_exec_query self q0 w2 = (Err e0, w3) ->
  exn_cls e0 = QueryBadFormed ->
  (max_fix_retries self < 1 ->
   _execute_query self q0 schema s0 = (Err e0, s1) /\
   _call self inputs s = (Err e0, s1) /\
   last_failure (trace s1) = Some e0 /\
   count is_qa (trace s1) = count is_qa (trace s)) /\
  (forall (k : nat) l sk e s',
      nsteps (failed_turn self schema) k (mkLocals 1 (exn_str e0) q0, s1) (l, sk) ->
      exhausting_turn self schema (l, sk) e s' ->
      _execute_query self q0 schema s0 = (Err e, s') /\
      _call self inputs s = (Err e, s') /\
      exn_cls e = QueryBadFormed /\
      last_failure (trace s') = Some e /\
      last (trace s') = Some (bad_formed_text e) /\
      count is_qa (trace s') = count is_qa (trace s)).
Proof.
  intros schema s0 s1 Hin Hclock Hgen Hexec0 Hcls0. split.
  - intros Hlt.
    assert (Hrun : _execute_query self q0 schema s0 = (Err e0, s1)).
    { rewrite execute_query_conclude,
        (try_bad_formed self q0 schema (mkLocals 0 "" q0) s0 e0 w3 eq_refl Hexec0 Hcls0).
      destruct (Z.gtb_spec 1 (max_fix_retries self)); [reflexivity | lia]. }
    split; [exact Hrun|].
    split; [exact (call_execute_raises self _ _ _ _ _ _ _ _ _ Hin Hclock Hgen Hrun)|].
    unfold s1, s0. cbn [trace]. rewrite !last_failure_app, !count_app. cbn.
    split; [reflexivity | lia].
  - intros k l sk e s' Hturns Hlast.
    destruct (exhausting_turn_trace self schema l sk e s' Hlast)
      as (Hret & Hcls & t & Ht & _ & Hq & Hfail & Hrep).
    pose proof (failed_turns_retries self _ _ _ _ Hturns) as Hk. cbn [fst retries] in Hk.
    destruct (failed_turns_trace self _ _ _ _ Hturns) as (tk & Htk & _ & Hqk).
    cbn [snd trace] in Htk.
    assert (Hrun : _execute_query self q0 schema s0 = (Err e, s')).
    { rewrite (execute_query_after_turns self q0 schema s0 e0 w3 k l sk
                 Hexec0 Hcls0 Hturns ltac:(lia)).
      exact (exhausting_turn_loop self schema l sk e s' Hlast). }
    split; [exact Hrun|].
    split; [exact (call_execute_raises self _ _ _ _ _ _ _ _ _ Hin Hclock Hgen Hrun)|].
    split; [assumption|].
    rewrite Ht, Htk. unfold s1, s0. cbn [trace].
    rewrite !last_failure_app, last_app, !count_app, Hfail, Hrep, Hq, Hqk. cbn.
    repeat split; lia.
Qed.

(** C7.  With a repair budget [N >= 0] and collaborators that behave in any
    way, [_execute_query] ends, by a return or by a raise ([while_loop] is a
    total function: each further turn has [retries] one closer to [N + 1]).
    It invokes the repair chain at most [N] times and the endpoint at most
    [N + 1] times, so the query it was given and the repaired queries make at
    most [N + 1] distinct candidates. *)
Theorem repair_loop_bounded q schema s :
  0 <= max_fix_retries self ->
  exists out s' t,
    _execute_query self q schema s = (out, s') /\
    trace s' = trace s ++ t /\
    (count is_fix t <= Z.to_nat (max_fix_retries self))%nat /\
    (count is_exec t <= Z.to_nat (max_fix_retries self) + 1)%nat /\
    (length (remove_dups (q :: repaired t)) <= Z.to_nat (max_fix_retries self) + 1)%nat.
Proof.
  intros HN.
  destruct (try_trace self schema (mkLocals 0 "" q) s) as (t & Ht & Hf & He & _ & Hr).
  pose proof (try_not_Normal self schema (mkLocals 0 "" q) s) as Hend.
  rewrite execute_query_conclude.
  destruct (try_statement self schema (mkLocals 0 "" q) s) as [[[[|r]|e] l'] s'];
    cbn [fst snd conclude] in *; [congruence| |].
  all: do 2 eexists; exists t; split; [reflexivity|]; split; [assumption|].
  all: pose proof (remove_dups_shorter (q :: repaired t)) as Hd; cbn [length] in Hd.
  all: repeat split; lia.
Qed.

(** C8.  The lines after the [try] statement, which report that the query
    could not be executed and raise a plain [Exception], are never reached:
    the [try] statement always ends by a [return], whose value
    [_execute_query] returns, or by a raise, which [_execute_query]
    propagates, and in both cases [_execute_query] leaves the state the
    [try] statement left. *)
Theorem safety_net_unreachable q schema s :
  (exists r l' s',
      try_statement self schema (mkLocals 0 "" q) s = (Ok (Returned r), l', s') /\
      _execute_query self q schema s = (Ok r, s')) \/
  (exists e l' s',
      try_statement self schema (mkLocals 0 "" q) s = (Err e, l', s') /\
      _execute_query self q schema s = (Err e, s')).
Proof.
  pose proof (try_not_Normal self schema (mkLocals 0 "" q) s) as Hend.
  rewrite execute_query_conclude.
  destruct (try_statement self schema (mkLocals 0 "" q) s) as [[[[|r]|e] l'] s'];
    cbn [fst snd conclude] in *; [congruence| |].
  - left. exists r, l', s'. split; reflexivity.
  - right. exists e, l', s'. split; reflexivity.
Qed.

(** C6.  If the generated query is malformed, the first [k] repaired
    queries are malformed too and the next one, the repaired query number
    [k + 1 <= N], executes successfully, then [_call] returns the mapping
    built from the answer of the answer chain on the formatted results (the
    text [context] the formatter makes of them) and from that last repaired
    query: the repaired query is under the key of
    the generated query, and the answer under the key of the answer (the two
    keys being different). *)
Theorem repaired_query_is_returned
    inputs s prompt t0 w1 q0 w2 e0 w3 (k : nat) l sk qk w4 rs w5 context answer w6 t1 w7 :
  let schema := graph_get_schema self (world s) in
  inputs !! input_key self = Some prompt ->
  time_time self (world s) = (t0, w1) ->
  sparql_generation_chain self prompt schema w1 = (Ok q0, w2) ->
  graph_exec_query self q0 w2 = (Err e0, w3) ->
  exn_cls e0 = QueryBadFormed ->
  Z.of_nat (S k) <= max_fix_retries self ->
  nsteps (rejected_repair self schema) k
    (mkLocals 1 (exn_str e0) q0,
     mkSt w3 (trace s ++ asked prompt schema (Ok q0) ++ attempt q0 (Err e0)
                ++ [bad_formed_text e0]))
    (l, sk) ->
  sparql_fix_chain self (error_message l) (generated_sparql l) schema (world sk)
    = (Ok qk, w4) ->
  graph_exec_query self qk w4 = (Ok rs, w5) ->
  query_results_to_json rs = Ok context ->
  qa_chain self prompt context w5 = (Ok answer, w6) ->
  time_time self w6 = (t1, w7) ->
  exists out s' t,
    _call self inputs s = (Ok out, s') /\
    out = <[output_key_generated_sparql self := qk]>
            (<[output_key_answer self := answer]> ∅) /\
    out !! output_key_generated_sparql self = Some qk /\
    (output_key_answer self <> output_key_generated_sparql self ->
     out !! output_key_answer self = Some answer) /\
    trace s' = trace s ++ t /\
    length (repaired t) = S k /\ last (repaired t) = Some qk /\
    count is_qa t = 1%nat.
Proof.
  intros schema Hin Hclock Hgen Hexec0 Hcls0 Hk Hturns Hfix Hexec Hjson Hqa Hstop.
  set (s0 := mkSt w2 (trace s ++ asked prompt schema (Ok q0))).
  pose proof (rejected_repairs_failed self _ _ _ _ Hturns) as Hfailed.
  pose proof (failed_turns_retries self _ _ _ _ Hfailed) as Hret.
  cbn [fst retries] in Hret.
  destruct (rejected_repairs_trace self _ _ _ _ Hturns) as (tk & Htk & Hrk & Hqk).
  cbn [snd trace] in Htk.
  assert (Hrun : _execute_query self q0 schema s0 =
                 (Ok (qk, rs),
                  mkSt w5 (trace sk ++ retry_text (max_fix_retries self) l
                             :: repair_call l schema (Ok qk) :: attempt qk (Ok rs)))).
  { rewrite (execute_query_after_turns self q0 schema s0 e0 w3 k l sk Hexec0 Hcls0).
    - rewrite while_loop_step.
      destruct (Z.leb_spec (retries l) (max_fix_retries self)); [|lia].
      rewrite (body_executes self _ _ _ _ _ _ _ Hfix Hexec). reflexivity.
    - unfold s0. cbn [trace]. rewrite <- app_assoc. exact Hfailed.
    - lia. }
  pose proof (call_answers self inputs s prompt t0 w1 q0 w2 qk rs _ context answer w6 t1 w7
                Hin Hclock Hgen Hrun Hjson Hqa Hstop) as Hcall.
  do 3 eexists. split; [exact Hcall|]. split; [reflexivity|].
  split; [apply lookup_insert_eq|].
  split; [intros Hne; rewrite lookup_insert_ne by congruence; apply lookup_insert_eq|].
  cbn [trace]. rewrite Htk, <- !app_assoc. split; [reflexivity|].
  rewrite !repaired_app, !count_app, !length_app, Hrk, Hqk.
  split; [cbn; lia|]. split; [|reflexivity].
  cbn. apply last_snoc.
Qed.

(** C10, as amended.  If, after a malformed first query and any number of
    failed turns, the call of the repair chain raises a failure that is not
    a [QueryBadFormed], [_execute_query] raises that failure at once: the
    local variables of the loop are as they were ([retries] is not
    incremented), and after the call of the repair chain nothing more is
    done: no text is reported, no query is executed, the repair chain is not
    called again. *)
Theorem repair_failure_propagates q schema s0 e0 w0 (k : nat) l s e w1 :
  graph_exec_query self q (world s0) = (Err e0, w0) ->
  exn_cls e0 = QueryBadFormed ->
  nsteps (failed_turn self schema) k
    (mkLocals 1 (exn_str e0) q,
     mkSt w0 (trace s0 ++ attempt q (Err e0) ++ [bad_formed_text e0]))
    (l, s) ->
  retries l <= max_fix_retries self ->
  sparql_fix_chain self (error_message l) (generated_sparql l) schema (world s)
    = (Err e, w1) ->
  exn_cls e <> QueryBadFormed ->
  let s' := mkSt w1 (trace s ++ [retry_text (max_fix_retries self) l;
                                 repair_call l schema (Err e)]) in
  while_loop self schema l s = (Err e, l, s') /\
  _execute_query self q schema s0 = (Err e, s').
Proof.
  intros Hexec0 Hcls0 Hturns Hle Hfix Hcls s'.
  apply not_isinstance_QueryBadFormed in Hcls.
  assert (Hloop : while_loop self schema l s = (Err e, l, s')).
  { rewrite while_loop_step.
    destruct (Z.leb_spec (retries l) (max_fix_retries self)); [|lia].
    rewrite (body_repair_raises self _ _ _ _ _ Hfix Hcls). reflexivity. }
  split; [exact Hloop|].
  rewrite (execute_query_after_turns self q schema s0 e0 w0 k l s Hexec0 Hcls0 Hturns Hle).
  rewrite Hloop. reflexivity.
Qed.

End Claims.

(** ** The claims about the result formatter *)

Lemma for_items_spec (d : Row) (res : list json) :
  for_items d res = res ++ map single_entry d.
Proof.
  unfold for_items. revert res.
  induction d as [|kv d IH]; intros res; cbn.
  - symmetry. apply app_nil_r.
  - rewrite IH, <- app_assoc. reflexivity.
Qed.

Lemma for_rows_spec (rows : list Row) (res : list json) :
  for_rows rows res = res ++ flat_spec rows.
Proof.
  unfold for_rows, flat_spec. revert res.
  induction rows as [|d rows IH]; intros res; cbn.
  - symmetry. apply app_nil_r.
  - rewrite IH, for_items_spec, <- app_assoc. reflexivity.
Qed.

Lemma flat_spec_names_and_values (r1 r2 : Bindings) :
  names_and_values r1 = names_and_values r2 ->
  flat_spec (bindings r1) = flat_spec (bindings r2).
Proof.
  unfold names_and_values, flat_spec. intros Heq.
  assert (Hrows : forall rows : list Row,
             map (fun row => map single_entry row) rows =
             map (map (fun nv : string * string => JObject [(fst nv, JString (snd nv))]))
                 (map (map (fun kv : string * Value => (fst kv, value (snd kv)))) rows)).
  { intros rows. rewrite List.map_map. apply List.map_ext. intros row.
    rewrite List.map_map. reflexivity. }
  rewrite !Hrows, Heq. reflexivity.
Qed.

Lemma query_results_to_json_spec (b : Bindings) :
  query_results_to_json (WithBindings b) =
  Ok (json_dumps (JArray (flat_spec (bindings b)))).
Proof. unfold query_results_to_json. rewrite for_rows_spec. reflexivity. Qed.

(** C4.  [query_results_to_json] returns the JSON text of the flat sequence
    that has, for every row in order and every binding of the row in order,
    one single-key object from the name to the value.  The bindings
    [a = 1, b = 2] of one row give the text of two objects, not the text of
    the one row-grouped object. *)
Theorem query_results_to_json_flattens :
  (forall b : Bindings,
      query_results_to_json (WithBindings b) =
      Ok (json_dumps (JArray (flat_spec (bindings b))))) /\
  query_results_to_json Script.rows1 =
    Ok (json_dumps (JArray [JObject [("a", JString "1")]; JObject [("b", JString "2")]])) /\
  query_results_to_json Script.rows1 = Ok Script.flat_text /\
  query_results_to_json Script.rows1 <>
    Ok (json_dumps (JArray (row_grouped (bindings Script.bindings1)))).
Proof.
  split; [|split; [|split]].
  - exact query_results_to_json_spec.
  - reflexivity.
  - reflexivity.
  - vm_compute. discriminate.
Qed.

(** C9.  The text [query_results_to_json] returns is a function of the
    result set, and of the names and values of its bindings alone: formatting
    the same result set again, or a result set with the same rows of names
    and values, gives the same string. *)
Theorem query_results_to_json_deterministic (r1 r2 : Bindings) :
  names_and_values r1 = names_and_values r2 ->
  query_results_to_json (WithBindings r1) = query_results_to_json (WithBindings r2).
Proof.
  intros Heq.
  rewrite !query_results_to_json_spec, (flat_spec_names_and_values r1 r2 Heq).
  reflexivity.
Qed.

(** ** The claims at concrete collaborators *)

Lemma first_query_succeeds_witness :
  _execute_query (Script.chain 3 2) "GOOD" "SCHEMA" Script.start
    = (Ok ("GOOD", Script.rows1), mkSt 0%nat (attempt "GOOD" (Ok Script.rows1))) /\
  count is_fix (trace (snd (_execute_query (Script.chain 3 2) "GOOD" "SCHEMA" Script.start)))
    = 0%nat.
Proof.
  apply (first_query_succeeds (Script.chain 3 2) "GOOD" "SCHEMA" Script.start
           Script.rows1 0%nat).
  reflexivity.
Defined.

Lemma other_failure_propagates_witness :
  _execute_query (with_max_fix_retries 7 (Script.locked 5)) "Q" "SCHEMA" Script.start
    = (Err (Exn Unauthorized "401"),
       mkSt 0%nat (attempt "Q" (Err (Exn Unauthorized "401"))
                   ++ [on_text "Unauthorized (status code 401): 401" red])) /\
  count is_fix (trace (snd (_execute_query (with_max_fix_retries 7 (Script.locked 5))
                              "Q" "SCHEMA" Script.start))) = 0%nat /\
  count is_exec (trace (snd (_execute_query (with_max_fix_retries 7 (Script.locked 5))
                               "Q" "SCHEMA" Script.start))) = 1%nat.
Proof.
  apply (other_failure_propagates (Script.locked 5) "Q" "SCHEMA" Script.start
           (Exn Unauthorized "401") 0%nat 7).
  - reflexivity.
  - discriminate.
Defined.

Lemma all_malformed_exhausts_budget_witness :
  exists s',
    _execute_query (Script.chain 2 0) "BAD0" "SCHEMA" Script.start
      = (Err (Exn QueryBadFormed "bad: BAD"), s') /\
    world s' = 2%nat /\
    count is_fix (trace s') = 2%nat /\ count is_exec (trace s') = 3%nat.
Proof.
  pose proof (all_malformed_exhausts_budget (Script.chain 2 0) "BAD0" "SCHEMA"
                Script.start (Exn QueryBadFormed "bad: BAD0") 0%nat
                ltac:(cbn; lia) eq_refl eq_refl) as Hruns.
  cbv zeta in Hruns. destruct Hruns as [_ Hruns].
  edestruct (Hruns 1%nat) as (Hrun & _ & _ & _).
  - apply nsteps_once, failed_execution.
    eapply rejected_repair_intro; [cbn; lia | reflexivity | reflexivity | reflexivity].
  - eapply exhausting_execution; reflexivity.
  - eexists. split; [exact Hrun|]. cbn. auto.
Defined.

Lemma exhausted_budget_raises_last_failure_witness :
  exists s',
    _call Script.spent Script.question Script.start = (Err Script.boom, s') /\
    last_failure (trace s') = Some Script.boom /\
    last (trace s') = Some (bad_formed_text Script.boom) /\
    count is_qa (trace s') = 0%nat.
Proof.
  pose proof (exhausted_budget_raises_last_failure Script.spent Script.question
                Script.start "How many triples exist?" tt 0%nat "BAD0" 0%nat
                (Exn QueryBadFormed "bad: BAD0") 0%nat
                eq_refl eq_refl eq_refl eq_refl eq_refl) as Hruns.
  cbv zeta in Hruns. destruct Hruns as [_ Hruns].
  edestruct (Hruns 1%nat) as (_ & Hrun & _ & Hfail & Hrep & Hqa).
  - apply nsteps_once, failed_execution.
    eapply rejected_repair_intro; [cbn; lia | reflexivity | reflexivity | reflexivity].
  - eapply exhausting_repair_call; reflexivity.
  - eexists. split; [exact Hrun|]. auto.
Defined.

(** C5, as stated, fails.  With [Script.stubborn] the budget of one repair
    is used up by the call of the repair chain, which raises [Script.boom],
    a [QueryBadFormed].  [_call] raises that failure, with its message; the
    last execution that failed is the one of the generated query, with
    another message. *)
Lemma exhausted_budget_message_of_repair_chain :
  max_fix_retries Script.stubborn = 1 /\
  fst (_call Script.stubborn Script.question Script.start) = Err Script.boom /\
  count is_fix (trace (snd (_call Script.stubborn Script.question Script.start)))
    = 1%nat /\
  last_execution (trace (snd (_call Script.stubborn Script.question Script.start)))
    = Some (Err (Exn QueryBadFormed "bad: BAD0")) /\
  exn_str Script.boom <> exn_str (Exn QueryBadFormed "bad: BAD0").
Proof.
  split; [reflexivity|]. split; [vm_compute; reflexivity|].
  split; [vm_compute; reflexivity|]. split; [vm_compute; reflexivity|].
  vm_compute. discriminate.
Qed.

Lemma repair_loop_bounded_witness :
  exists out s' t,
    _execute_query (Script.chain 3 2) "BAD0" "SCHEMA" Script.start = (out, s') /\
    trace s' = t /\
    (count is_fix t <= 3)%nat /\ (count is_exec t <= 4)%nat /\
    (length (remove_dups ("BAD0" :: repaired t)) <= 4)%nat.
Proof.
  destruct (repair_loop_bounded (Script.chain 3 2) "BAD0" "SCHEMA" Script.start)
    as (out & s' & t & Hrun & Ht & Hf & He & Hd).
  - cbn. lia.
  - exists out, s', t. auto.
Defined.

Lemma repaired_query_is_returned_witness :
  exists out s',
    _call (Script.chain 3 2) Script.question Script.start = (Ok out, s') /\
    out !! "generated_sparql" = Some "GOOD" /\
    out !! "answer" = Some ("ANSWER to " +:+ Script.flat_text).
Proof.
  destruct (repaired_query_is_returned (Script.chain 3 2) Script.question Script.start
              "How many triples exist?" tt 0%nat "BAD0" 0%nat
              (Exn QueryBadFormed "bad: BAD0") 0%nat 1
              (mkLocals 2 "bad: BAD" "BAD")
              (mkSt 1%nat
                 (asked "How many triples exist?" "SCHEMA" (Ok "BAD0")
                  ++ attempt "BAD0" (Err (Exn QueryBadFormed "bad: BAD0"))
                  ++ bad_formed_text (Exn QueryBadFormed "bad: BAD0")
                  :: retry_text 3 (mkLocals 1 "bad: BAD0" "BAD0")
                  :: repair_call (mkLocals 1 "bad: BAD0" "BAD0") "SCHEMA" (Ok "BAD")
                  :: attempt "BAD" (Err (Exn QueryBadFormed "bad: BAD"))
                  ++ [bad_formed_text (Exn QueryBadFormed "bad: BAD")]))
              "GOOD" 2%nat Script.rows1 2%nat Script.flat_text
              ("ANSWER to " +:+ Script.flat_text) 2%nat tt 2%nat)
    as (out & s' & t & Hrun & Hout & Hq & Ha & _).
  - reflexivity.
  - reflexivity.
  - reflexivity.
  - reflexivity.
  - reflexivity.
  - cbn. lia.
  - apply nsteps_once.
    exact (rejected_repair_intro (Script.chain 3 2) "SCHEMA"
             (mkLocals 1 "bad: BAD0" "BAD0")
             (mkSt 0%nat (asked "How many triples exist?" "SCHEMA" (Ok "BAD0")
                          ++ attempt "BAD0" (Err (Exn QueryBadFormed "bad: BAD0"))
                          ++ [bad_formed_text (Exn QueryBadFormed "bad: BAD0")]))
             "BAD" 1%nat (Exn QueryBadFormed "bad: BAD") 1%nat
             ltac:(cbn; lia) eq_refl eq_refl eq_refl).
  - reflexivity.
  - reflexivity.
  - reflexivity.
  - reflexivity.
  - reflexivity.
  - exists out, s'. split; [exact Hrun|]. split; [exact Hq|].
    apply Ha. discriminate.
Defined.

Lemma repair_failure_propagates_witness :
  _execute_query Script.broken "BAD0" "SCHEMA" Script.start
  = (Err Script.down,
     mkSt 2%nat
       (attempt "BAD0" (Err (Exn QueryBadFormed "bad: BAD0"))
        ++ bad_formed_text (Exn QueryBadFormed "bad: BAD0")
        :: retry_text 3 (mkLocals 1 "bad: BAD0" "BAD0")
        :: repair_call (mkLocals 1 "bad: BAD0" "BAD0") "SCHEMA" (Ok "BAD")
        :: attempt "BAD" (Err (Exn QueryBadFormed "bad: BAD"))
        ++ [bad_formed_text (Exn QueryBadFormed "bad: BAD");
            retry_text 3 (mkLocals 2 "bad: BAD" "BAD");
            repair_call (mkLocals 2 "bad: BAD" "BAD") "SCHEMA" (Err Script.down)])).
Proof.
  refine (proj2 (repair_failure_propagates Script.broken "BAD0" "SCHEMA" Script.start
                   (Exn QueryBadFormed "bad: BAD0") 0%nat 1
                   (mkLocals 2 "bad: BAD" "BAD")
                   (mkSt 1%nat
                      (attempt "BAD0" (Err (Exn QueryBadFormed "bad: BAD0"))
                       ++ bad_formed_text (Exn QueryBadFormed "bad: BAD0")
                       :: retry_text 3 (mkLocals 1 "bad: BAD0" "BAD0")
                       :: repair_call (mkLocals 1 "bad: BAD0" "BAD0") "SCHEMA" (Ok "BAD")
                       :: attempt "BAD" (Err (Exn QueryBadFormed "bad: BAD"))
                       ++ [bad_formed_text (Exn QueryBadFormed "bad: BAD")]))
                   Script.down 2%nat eq_refl eq_refl _ _ eq_refl _)).
  - apply nsteps_once. apply failed_execution.
    exact (rejected_repair_intro Script.broken "SCHEMA"
             (mkLocals 1 "bad: BAD0" "BAD0")
             (mkSt 0%nat (attempt "BAD0" (Err (Exn QueryBadFormed "bad: BAD0"))
                          ++ [bad_formed_text (Exn QueryBadFormed "bad: BAD0")]))
             "BAD" 1%nat (Exn QueryBadFormed "bad: BAD") 1%nat
             ltac:(cbn; lia) eq_refl eq_refl eq_refl).
  - cbn. lia.
  - discriminate.
Defined.

Lemma query_results_to_json_deterministic_witness :
  query_results_to_json Script.rows1
  = query_results_to_json (WithBindings Script.bindings1_typed).
Proof.
  apply (query_results_to_json_deterministic Script.bindings1 Script.bindings1_typed).
  reflexivity.
Defined.

(** C10, as stated, fails.  With [Script.flaky] the first query is
    malformed and the first call of the repair chain raises [Script.boom], a
    [QueryBadFormed].  That failure does not leave [_execute_query]: the
    handler inside the loop takes it for a malformed query, the repair chain
    is called a second time, its query is executed, and [_execute_query]
    returns. *)
Lemma repair_chain_bad_formed_is_retried :
  graph_exec_query Script.flaky "BAD0" 0%nat
    = (Err (Exn QueryBadFormed "bad: BAD0"), 0%nat) /\
  sparql_fix_chain Script.flaky "bad: BAD0" "BAD0" "SCHEMA" 0%nat
    = (Err Script.boom, 1%nat) /\
  fst (_execute_query Script.flaky "BAD0" "SCHEMA" Script.start)
    = Ok ("GOOD", Script.rows1) /\
  fst (_execute_query Script.flaky "BAD0" "SCHEMA" Script.start) <> Err Script.boom /\
  trace (snd (_execute_query Script.flaky "BAD0" "SCHEMA" Script.start))
    = attempt "BAD0" (Err (Exn QueryBadFormed "bad: BAD0"))
      ++ [bad_formed_text (Exn QueryBadFormed "bad: BAD0");
          retry_text 2 (mkLocals 1 "bad: BAD0" "BAD0");
          repair_call (mkLocals 1 "bad: BAD0" "BAD0") "SCHEMA" (Err Script.boom);
          bad_formed_text Script.boom;
          retry_text 2 (mkLocals 2 "boom" "BAD0");
          repair_call (mkLocals 2 "boom" "BAD0") "SCHEMA" (Ok "GOOD")]
      ++ attempt "GOOD" (Ok Script.rows1).
Proof.
  split; [reflexivity|]. split; [reflexivity|].
  split; [vm_compute; reflexivity|].
  split; [vm_compute; discriminate|].
  vm_compute; reflexivity.
Qed.

(** ** What every run of [_execute_query] keeps *)

Section Runs.
Context {W Instant : Type} (self : OntotextGraphDBQAChain W Instant).

Implicit Types (l : locals) (s : St W) (e : exn) (schema q : string).

Lemma executed_queries_app (t u : list event) :
  executed_queries (t ++ u) = executed_queries t ++ executed_queries u.
Proof.
  induction t as [|ev t IH]; cbn; [reflexivity|].
  destruct ev; cbn; rewrite IH; reflexivity.
Qed.

Lemma well_fed_app schema (em0 q0 : option string) (t u : list event) :
  well_fed schema em0 q0 t ->
  well_fed schema (foldl message_after em0 t) (foldl query_after q0 t) u ->
  well_fed schema em0 q0 (t ++ u).
Proof.
  revert em0 q0. induction t as [|ev t IH]; intros em0 q0 Ht Hu; cbn in *; [exact Hu|].
  destruct Ht as [Hev Ht]. split; [exact Hev|]. apply IH; assumption.
Qed.

(** The five ways a turn of the body can go, told apart by what the repair
    chain and the endpoint answer. *)
Lemma body_cases schema l s :
  (exists e w1,
      isinstance e ExQueryBadFormed = false /\
      while_body self schema l s =
      (Err e, l,
       mkSt w1 (trace s ++ [retry_text (max_fix_retries self) l;
                            repair_call l schema (Err e)]))) \/
  (exists e w1,
      while_body self schema l s =
      (if retries l + 1 >? max_fix_retries self then Err e else Ok Normal,
       mkLocals (retries l + 1) (exn_str e) (generated_sparql l),
       mkSt w1 (trace s ++ [retry_text (max_fix_retries self) l;
                            repair_call l schema (Err e);
                            bad_formed_text e]))) \/
  (exists q rs w2,
      while_body self schema l s =
      (Ok (Returned (q, rs)), set_generated_sparql q l,
       mkSt w2 (trace s ++ retry_text (max_fix_retries self) l
                         :: repair_call l schema (Ok q) :: attempt q (Ok rs)))) \/
  (exists q e w2,
      isinstance e ExQueryBadFormed = false /\
      while_body self schema l s =
      (Err e, set_generated_sparql q l,
       mkSt w2 (trace s ++ retry_text (max_fix_retries self) l
                         :: repair_call l schema (Ok q) :: attempt q (Err e)))) \/
  (exists q e w2,
      while_body self schema l s =
      (if retries l + 1 >? max_fix_retries self then Err e else Ok Normal,
       mkLocals (retries l + 1) (exn_str e) q,
       mkSt w2 (trace s ++ retry_text (max_fix_retries self) l
                         :: repair_call l schema (Ok q)
                         :: attempt q (Err e) ++ [bad_formed_text e]))).
Proof.
  destruct (sparql_fix_chain self (error_message l) (generated_sparql l) schema (world s))
    as [[q|e] w1] eqn:Hfix.
  - destruct (graph_exec_query self q w1) as [[rs|e] w2] eqn:Hexec.
    + do 2 right. left. exists q, rs, w2.
      exact (body_executes self _ _ _ _ _ _ _ Hfix Hexec).
    + destruct (isinstance e ExQueryBadFormed) eqn:Hcls.
      * do 4 right. exists q, e, w2.
        exact (body_execution_bad_formed self _ _ _ _ _ _ _ Hfix Hexec Hcls).
      * do 3 right. left. exists q, e, w2. split; [assumption|].
        exact (body_execution_raises self _ _ _ _ _ _ _ Hfix Hexec Hcls).
  - destruct (isinstance e ExQueryBadFormed) eqn:Hcls.
    + right. left. exists e, w1.
      exact (body_repair_bad_formed self _ _ _ _ _ Hfix Hcls).
    + left. exists e, w1. split; [assumption|].
      exact (body_repair_raises self _ _ _ _ _ Hfix Hcls).
Qed.

(** What the part of the trace written by a run records about the run. *)
Definition recorded (schema : string) (em q : option string) (t : list event)
    (out : result (completion Executed)) : Prop :=
  well_fed schema em q t /\
  count is_qa t = 0%nat /\ count is_generation t = 0%nat /\
  match out with
  | Ok (Returned (q', rs)) => last t = Some (exec_query q' (Ok rs))
  | Ok Normal => True
  | Err e => Exists (raises e) t
  end.

Lemma loop_run schema l s :
  exists t,
    trace (snd (while_loop self schema l s)) = trace s ++ t /\
    executed_queries t = repaired t /\
    recorded schema (Some (error_message l)) (Some (generated_sparql l)) t
      (fst (fst (while_loop self schema l s))).
Proof.
  apply (while_loop_ind self
           (fun l s out =>
              exists t,
                trace (snd out) = trace s ++ t /\
                executed_queries t = repaired t /\
                recorded schema (Some (error_message l)) (Some (generated_sparql l)) t
                  (fst (fst out))) schema).
  - intros l0 s0 _. exists []. cbn. rewrite app_nil_r. unfold recorded. cbn.
    repeat split.
  - intros l0 s0 r l' s' _ Hbody Hr.
    destruct (body_cases schema l0 s0)
      as [(e & w1 & Hcls & Hb) | [(e & w1 & Hb) | [(q & rs & w2 & Hb)
         | [(q & e & w2 & Hcls & Hb) | (q & e & w2 & Hb)]]]].
    all: rewrite Hb in Hbody; injection Hbody as <- <- <-.
    all: eexists; split; [reflexivity|]; unfold recorded; cbn.
    all: try (destruct (retries l0 + 1 >? max_fix_retries self); [|congruence]).
    all: repeat split; auto.
    + right. left. reflexivity.
    + right. left. reflexivity.
    + do 4 right. left. reflexivity.
    + do 4 right. left. reflexivity.
  - intros l0 s0 l' s' out _ Hbody (t2 & Ht2 & He2 & Hfed2 & Hq2 & Hg2 & Hout).
    destruct (body_cases schema l0 s0)
      as [(e & w1 & Hcls & Hb) | [(e & w1 & Hb) | [(q & rs & w2 & Hb)
         | [(q & e & w2 & Hcls & Hb) | (q & e & w2 & Hb)]]]].
    all: rewrite Hb in Hbody; try discriminate.
    all: destruct (retries l0 + 1 >? max_fix_retries self); try discriminate.
    all: injection Hbody as <- <-; cbn [trace error_message generated_sparql] in *.
    all: eexists; split; [rewrite Ht2, <- app_assoc; reflexivity|].
    all: split; [rewrite executed_queries_app, repaired_app, He2; reflexivity|].
    all: unfold recorded; rewrite !count_app, Hq2, Hg2.
    all: split; [apply well_fed_app; [cbn; repeat split | exact Hfed2]|].
    all: split; [reflexivity|]; split; [reflexivity|].
    all: destruct out as [[[[|[q' rs']]|e'] lo] so]; cbn [fst] in *; auto.
    all: try (rewrite last_app, Hout; reflexivity).
    all: apply Exists_app; right; exact Hout.
Qed.

Lemma failure_text_quiet e (em0 q0 : option string) schema :
  executed_queries (failure_text e) = [] /\
  count is_generation (failure_text e) = 0%nat /\
  foldl message_after em0 (failure_text e) = em0 /\
  foldl query_after q0 (failure_text e) = q0 /\
  well_fed schema em0 q0 (failure_text e).
Proof. unfold failure_text. destruct (exn_cls e); cbn; repeat split. Qed.

Lemma execute_query_run q schema s :
  exists t,
    trace (snd (_execute_query self q schema s)) = trace s ++ t /\
    executed_queries t = q :: repaired t /\
    well_fed schema None None t /\
    count is_qa t = 0%nat /\ count is_generation t = 0%nat /\
    match fst (_execute_query self q schema s) with
    | Ok (q', rs) => last t = Some (exec_query q' (Ok rs))
    | Err e => Exists (raises e) t
    end.
Proof.
  rewrite execute_query_conclude.
  destruct (graph_exec_query self q (world s)) as [[rs|e] w1] eqn:Hexec.
  - rewrite (try_executes self q schema (mkLocals 0 "" q) s rs w1 eq_refl Hexec).
    cbn [conclude snd fst trace]. eexists. split; [reflexivity|]. cbn. repeat split.
  - destruct (decide (exn_cls e = QueryBadFormed)) as [Hcls|Hcls].
    + rewrite (try_bad_formed self q schema (mkLocals 0 "" q) s e w1 eq_refl Hexec Hcls).
      destruct (Z.gtb_spec 1 (max_fix_retries self)) as [Hlt|Hle].
      * cbn [conclude snd fst trace]. eexists. split; [reflexivity|]. cbn.
        repeat split. do 2 right. left. reflexivity.
      * set (l0 := mkLocals 1 (exn_str e) q).
        set (s0 := mkSt w1 (trace s ++ attempt q (Err e) ++ [bad_formed_text e])).
        destruct (loop_run schema l0 s0) as (t & Ht & He & Hfed & Hq & Hg & Hout).
        pose proof (loop_not_Normal self schema l0 s0 Hle) as Hend.
        destruct (while_loop self schema l0 s0) as [[[[|[q' rs']]|e'] l'] s'];
          cbn [conclude fst snd] in *; [congruence| |].
        all: exists ((attempt q (Err e) ++ [bad_formed_text e]) ++ t).
        all: split; [rewrite Ht; unfold s0; cbn [trace]; rewrite <- !app_assoc; reflexivity|].
        all: split; [rewrite executed_queries_app, repaired_app, He; reflexivity|].
        all: split; [apply well_fed_app; [cbn; repeat split | exact Hfed]|].
        all: rewrite !count_app, Hq, Hg.
        all: split; [reflexivity|]; split; [reflexivity|].
        -- rewrite last_app, Hout. reflexivity.
        -- apply Exists_app. right. exact Hout.
    + rewrite (try_raises self q schema (mkLocals 0 "" q) s e w1 eq_refl Hexec Hcls).
      cbn [conclude snd fst trace].
      destruct (failure_text_quiet e (Some (exn_str e)) (Some q) schema)
        as (Hx & Hg & _ & _ & Hfed).
      destruct (failure_text_silent e) as (_ & _ & Hq & Hr & _).
      eexists. split; [reflexivity|].
      rewrite executed_queries_app, repaired_app, !count_app, Hx, Hg, Hq, Hr.
      split; [reflexivity|].
      split; [apply well_fed_app; [cbn; repeat split | exact Hfed]|].
      split; [reflexivity|]. split; [reflexivity|].
      apply Exists_app. left. cbn. do 2 right. left. reflexivity.
Qed.

(** *** The ways [_call] ends without an answer *)

Lemma call_missing_key inputs s :
  inputs !! input_key self = None ->
  _call self inputs s = (Err (KeyError (repr self) (input_key self)), s).
Proof.
  intros Hin. unfold _call, run, bind, raise. rewrite Hin. reflexivity.
Qed.

Lemma call_generation_raises inputs s prompt t0 w1 e w2 :
  inputs !! input_key self = Some prompt ->
  time_time self (world s) = (t0, w1) ->
  sparql_generation_chain self prompt (graph_get_schema self (world s)) w1 = (Err e, w2) ->
  _call self inputs s =
  (Err e, mkSt w2 (trace s ++ asked prompt (graph_get_schema self (world s)) (Err e))).
Proof.
  intros Hin Hclock Hgen.
  unfold _call, run, bind, lift, read_schema, read_clock, call, emit, ret, raise.
  rewrite Hin. cbn. rewrite Hclock. cbn. rewrite Hgen.
  unfold asked. rewrite <- ?app_assoc. reflexivity.
Qed.

Lemma call_answer_raises inputs s prompt t0 w1 q0 w2 q rs s1 context e w3 :
  inputs !! input_key self = Some prompt ->
  time_time self (world s) = (t0, w1) ->
  sparql_generation_chain self prompt (graph_get_schema self (world s)) w1 = (Ok q0, w2) ->
  _execute_query self q0 (graph_get_schema self (world s))
    (mkSt w2 (trace s ++ asked prompt (graph_get_schema self (world s)) (Ok q0)))
    = (Ok (q, rs), s1) ->
  query_results_to_json rs = Ok context ->
  qa_chain self prompt context (world s1) = (Err e, w3) ->
  _call self inputs s =
  (Err e, mkSt w3 (trace s1 ++ answered prompt context (Err e))).
Proof.
  intros Hin Hclock Hgen Hrun Hjson Hqa.
  unfold _call, run, bind, lift, read_schema, read_clock, returns, call, emit, ret, raise.
  rewrite Hin. cbn. rewrite Hclock. cbn. rewrite Hgen.
  unfold asked in Hrun. rewrite <- ?app_assoc. cbn [app]. rewrite Hrun. cbn.
  rewrite Hjson. cbn.
  rewrite Hqa. unfold answered. rewrite <- ?app_assoc. reflexivity.
Qed.

Lemma call_format_raises inputs s prompt t0 w1 q0 w2 q rs s1 e :
  inputs !! input_key self = Some prompt ->
  time_time self (world s) = (t0, w1) ->
  sparql_generation_chain self prompt (graph_get_schema self (world s)) w1 = (Ok q0, w2) ->
  _execute_query self q0 (graph_get_schema self (world s))
    (mkSt w2 (trace s ++ asked prompt (graph_get_schema self (world s)) (Ok q0)))
    = (Ok (q, rs), s1) ->
  query_results_to_json rs = Err e ->
  _call self inputs s = (Err e, s1).
Proof.
  intros Hin Hclock Hgen Hrun Hjson.
  unfold _call, run, bind, lift, read_schema, read_clock, returns, call, emit, ret, raise.
  rewrite Hin. cbn. rewrite Hclock. cbn. rewrite Hgen.
  unfold asked in Hrun. rewrite <- ?app_assoc. cbn [app]. rewrite Hrun. cbn.
  rewrite Hjson. reflexivity.
Qed.

Lemma last_is_execution (t : list event) q (r : result QueryResults) :
  last t = Some (exec_query q r) ->
  last_execution t = Some r /\ last (executed_queries t) = Some q.
Proof.
  intros Hlast. apply last_Some in Hlast. destruct Hlast as [t' ->].
  rewrite last_execution_app, executed_queries_app. cbn. split; [reflexivity|].
  apply last_snoc.
Qed.

(** What the part of the trace written by [_call] records, when the input
    key is there. *)
Lemma call_run inputs s prompt :
  inputs !! input_key self = Some prompt ->
  exists t,
    trace (snd (_call self inputs s)) = trace s ++ t /\
    count is_generation t = 1%nat /\
    match fst (_call self inputs s) with
    | Ok out =>
        exists q rs context answer,
          out = <[output_key_generated_sparql self := q]>
                  (<[output_key_answer self := answer]> ∅) /\
          last_execution t = Some (Ok rs) /\
          query_results_to_json rs = Ok context /\
          last (executed_queries t) = Some q /\
          In (qa_invoke prompt context (Ok answer)) t /\
          count is_qa t = 1%nat
    | Err e =>
        (Exists (raises e) t \/
         exists rs, last_execution t = Some (Ok rs) /\ query_results_to_json rs = Err e) /\
        (count is_qa t <= 1)%nat
    end.
Proof.
  intros Hin.
  destruct (time_time self (world s)) as [t0 w1] eqn:Hclock.
  set (schema := graph_get_schema self (world s)).
  destruct (sparql_generation_chain self prompt schema w1) as [[q0|e] w2] eqn:Hgen.
  2: { rewrite (call_generation_raises inputs s prompt t0 w1 e w2 Hin Hclock Hgen).
       cbn [fst snd trace]. eexists. split; [reflexivity|]. cbn.
       repeat split; [|lia]. left. do 2 right. left. reflexivity. }
  set (s0 := mkSt w2 (trace s ++ asked prompt schema (Ok q0))).
  destruct (execute_query_run q0 schema s0) as (t & Ht & _ & _ & Hq & Hg & Hout).
  destruct (_execute_query self q0 schema s0) as [[[q rs]|e] s1] eqn:Hrun;
    cbn [fst snd] in Ht, Hout; unfold s0 in Ht; cbn [trace] in Ht.
  2: { rewrite (call_execute_raises self inputs s prompt t0 w1 q0 w2 e s1
                  Hin Hclock Hgen Hrun).
       cbn [fst snd]. exists (asked prompt schema (Ok q0) ++ t).
       rewrite Ht, <- app_assoc, !count_app, Hq, Hg.
       split; [reflexivity|]. split; [reflexivity|].
       split; [left; apply Exists_app; right; exact Hout | cbn; lia]. }
  destruct (last_is_execution t q (Ok rs) Hout) as [Hlast Hlastq].
  destruct (query_results_to_json rs) as [context|e] eqn:Hjson.
  2: { rewrite (call_format_raises inputs s prompt t0 w1 q0 w2 q rs s1 e
                  Hin Hclock Hgen Hrun Hjson).
       cbn [fst snd]. exists (asked prompt schema (Ok q0) ++ t).
       rewrite Ht, <- app_assoc, !count_app, last_execution_app, Hq, Hg, Hlast.
       split; [reflexivity|]. split; [reflexivity|].
       split; [right; exists rs; auto | cbn; lia]. }
  destruct (qa_chain self prompt context (world s1)) as [[answer|e] w3] eqn:Hqa.
  - destruct (time_time self w3) as [t1 w4] eqn:Hstop.
    rewrite (call_answers self inputs s prompt t0 w1 q0 w2 q rs s1 context answer w3 t1 w4
               Hin Hclock Hgen Hrun Hjson Hqa Hstop).
    cbn [fst snd trace]. eexists.
    split; [rewrite Ht, <- !app_assoc; reflexivity|].
    rewrite !count_app, Hq, Hg. split; [reflexivity|].
    exists q, rs, context, answer. split; [reflexivity|].
    rewrite !last_execution_app, !executed_queries_app, Hlast. cbn.
    rewrite app_nil_r. split; [reflexivity|]. split; [exact Hjson|].
    split; [exact Hlastq|].
    split; [|reflexivity].
    do 3 right. apply in_or_app. right. cbn. tauto.
  - rewrite (call_answer_raises inputs s prompt t0 w1 q0 w2 q rs s1 context e w3
               Hin Hclock Hgen Hrun Hjson Hqa).
    cbn [fst snd trace]. eexists.
    split; [rewrite Ht, <- !app_assoc; reflexivity|].
    rewrite !count_app, Hq, Hg. split; [reflexivity|].
    split; [|cbn; lia].
    left. apply Exists_app. right. apply Exists_app. right. cbn.
    do 2 right. left. reflexivity.
Qed.

End Runs.

(** ** Further properties of the chain *)

Section ChainProperties.
Context {W Instant : Type} (self : OntotextGraphDBQAChain W Instant).

(** X2.  A failure of the generation chain, of whatever class (a
    [QueryBadFormed] as well), leaves [_call] as it is: after the question is
    reported and the chain called, nothing is done, so no query is executed
    or repaired and no answer is asked for. *)
Theorem generation_failure_propagates inputs s prompt t0 w1 e w2 :
  inputs !! input_key self = Some prompt ->
  time_time self (world s) = (t0, w1) ->
  sparql_generation_chain self prompt (graph_get_schema self (world s)) w1 = (Err e, w2) ->
  _call self inputs s =
    (Err e, mkSt w2 (trace s ++ asked prompt (graph_get_schema self (world s)) (Err e))) /\
  count is_exec (trace (snd (_call self inputs s))) = count is_exec (trace s) /\
  count is_fix (trace (snd (_call self inputs s))) = count is_fix (trace s) /\
  count is_qa (trace (snd (_call self inputs s))) = count is_qa (trace s).
Proof.
  intros Hin Hclock Hgen.
  rewrite (call_generation_raises self inputs s prompt t0 w1 e w2 Hin Hclock Hgen).
  split; [reflexivity|]. cbn [snd trace]. rewrite !count_app. cbn. lia.
Qed.

(** X3.  A failure of the answer chain leaves [_call] as it is, although the
    query was executed: the answer chain is called once, not again, and
    neither the query nor the results are returned. *)
Theorem answer_failure_propagates inputs s prompt t0 w1 q0 w2 q rs s1 context e w3 :
  inputs !! input_key self = Some prompt ->
  time_time self (world s) = (t0, w1) ->
  sparql_generation_chain self prompt (graph_get_schema self (world s)) w1 = (Ok q0, w2) ->
  _execute_query self q0 (graph_get_schema self (world s))
    (mkSt w2 (trace s ++ asked prompt (graph_get_schema self (world s)) (Ok q0)))
    = (Ok (q, rs), s1) ->
  query_results_to_json rs = Ok context ->
  qa_chain self prompt context (world s1) = (Err e, w3) ->
  _call self inputs s =
    (Err e, mkSt w3 (trace s1 ++ answered prompt context (Err e))) /\
  count is_qa (trace (snd (_call self inputs s))) = S (count is_qa (trace s1)).
Proof.
  intros Hin Hclock Hgen Hrun Hjson Hqa.
  rewrite (call_answer_raises self inputs s prompt t0 w1 q0 w2 q rs s1 context e w3
             Hin Hclock Hgen Hrun Hjson Hqa).
  split; [reflexivity|]. cbn [snd trace]. rewrite count_app. cbn. lia.
Qed.

(** X4.  A failure of another class than [QueryBadFormed] raised by the
    execution of a repaired query leaves [_execute_query] at once and is not
    reported: the handlers that report such a failure of the first execution
    guard the first execution only, so the last thing in the trace is the
    failed execution itself. *)
Theorem repaired_query_failure_is_not_reported q0 schema s0 e0 w0 (k : nat) l s q w1 e w2 :
  graph_exec_query self q0 (world s0) = (Err e0, w0) ->
  exn_cls e0 = QueryBadFormed ->
  nsteps (failed_turn self schema) k
    (mkLocals 1 (exn_str e0) q0,
     mkSt w0 (trace s0 ++ attempt q0 (Err e0) ++ [bad_formed_text e0]))
    (l, s) ->
  retries l <= max_fix_retries self ->
  sparql_fix_chain self (error_message l) (generated_sparql l) schema (world s)
    = (Ok q, w1) ->
  graph_exec_query self q w1 = (Err e, w2) ->
  exn_cls e <> QueryBadFormed ->
  _execute_query self q0 schema s0 =
    (Err e, mkSt w2 (trace s ++ retry_text (max_fix_retries self) l
                              :: repair_call l schema (Ok q) :: attempt q (Err e))) /\
  last (trace (snd (_execute_query self q0 schema s0))) = Some (exec_query q (Err e)).
Proof.
  intros Hexec0 Hcls0 Hturns Hle Hfix Hexec Hcls.
  apply not_isinstance_QueryBadFormed in Hcls.
  assert (Hrun : _execute_query self q0 schema s0 =
                 (Err e, mkSt w2 (trace s ++ retry_text (max_fix_retries self) l
                                           :: repair_call l schema (Ok q)
                                           :: attempt q (Err e)))).
  { rewrite (execute_query_after_turns self q0 schema s0 e0 w0 k l s
               Hexec0 Hcls0 Hturns Hle).
    rewrite while_loop_step.
    destruct (Z.leb_spec (retries l) (max_fix_retries self)); [|lia].
    rewrite (body_execution_raises self _ _ _ _ _ _ _ Hfix Hexec Hcls). reflexivity. }
  split; [exact Hrun|].
  rewrite Hrun. cbn [snd trace]. rewrite last_app. reflexivity.
Qed.

(** X5.  In every run of [_execute_query], each call of the repair chain is
    given the message of the failure raised last before it (by the endpoint
    or by the repair chain itself), the query executed last before it, and
    the schema [_execute_query] was given. *)
Theorem repair_chain_is_well_fed q schema s :
  exists t,
    trace (snd (_execute_query self q schema s)) = trace s ++ t /\
    well_fed schema None None t.
Proof.
  destruct (execute_query_run self q schema s) as (t & Ht & _ & Hfed & _).
  exists t. auto.
Qed.

(** X6.  In every run of [_execute_query], the queries sent to the endpoint
    are the query it was given followed by the queries the repair chain
    returned, in that order: each repaired query is executed once, and no
    other query is. *)
Theorem executed_queries_are_the_candidates q schema s :
  exists t,
    trace (snd (_execute_query self q schema s)) = trace s ++ t /\
    executed_queries t = q :: repaired t.
Proof.
  destruct (execute_query_run self q schema s) as (t & Ht & He & _).
  exists t. auto.
Qed.

(** X7.  Whenever [_execute_query] returns, the last thing it did was the
    successful execution of the query it returns, and the result set it
    returns is what the endpoint answered to it. *)
Theorem returned_query_was_executed_last q schema s q' rs :
  fst (_execute_query self q schema s) = Ok (q', rs) ->
  last (trace (snd (_execute_query self q schema s))) = Some (exec_query q' (Ok rs)).
Proof.
  intros Hret.
  destruct (execute_query_run self q schema s) as (t & Ht & _ & _ & _ & _ & Hout).
  rewrite Hret in Hout. rewrite Ht, last_app, Hout. reflexivity.
Qed.

(** X8.  Whenever [_execute_query] raises, the exception is one that the
    endpoint or the repair chain raised in a call of this run. *)
Theorem raised_failure_comes_from_a_collaborator q schema s e :
  fst (_execute_query self q schema s) = Err e ->
  exists t,
    trace (snd (_execute_query self q schema s)) = trace s ++ t /\
    Exists (raises e) t.
Proof.
  intros Hraise.
  destruct (execute_query_run self q schema s) as (t & Ht & _ & _ & _ & _ & Hout).
  rewrite Hraise in Hout. exists t. auto.
Qed.

(** X9.  With a repair budget of zero or less (the configuration is not
    checked against negative values), [_execute_query] executes the query it
    was given, once, and does nothing else with the collaborators, however
    the execution ends. *)
Theorem no_budget_no_repair q schema s :
  max_fix_retries self <= 0 ->
  exists t,
    trace (snd (_execute_query self q schema s)) = trace s ++ t /\
    executed_queries t = [q] /\
    count is_fix t = 0%nat.
Proof.
  intros HN.
  destruct (execute_query_run self q schema s) as (t & Ht & He & _).
  destruct (try_trace self schema (mkLocals 0 "" q) s) as (t' & Ht' & Hf & _ & _ & Hr).
  assert (Heq : t = t').
  { rewrite execute_query_conclude in Ht.
    pose proof (try_not_Normal self schema (mkLocals 0 "" q) s) as Hend.
    destruct (try_statement self schema (mkLocals 0 "" q) s) as [[[[|r]|e] l'] s'];
      cbn [fst snd conclude] in *; [congruence| |].
    all: rewrite Ht in Ht'; apply app_inv_head in Ht'; exact Ht'. }
  subst t'. exists t. split; [exact Ht|].
  assert (Hfix : count is_fix t = 0%nat) by lia.
  split; [|exact Hfix].
  rewrite He. rewrite Hfix in Hr. destruct (repaired t); [reflexivity | cbn in Hr; lia].
Qed.

(** X10.  Whenever [_call] returns, the mapping it returns is the dict
    literal built from an answer and a query, where the query is the one
    executed last, and the answer is what the answer chain, called once, said
    of the formatted result set of that last execution. *)
Theorem call_returns_what_was_executed_and_answered inputs s out :
  fst (_call self inputs s) = Ok out ->
  exists prompt q rs context answer t,
    inputs !! input_key self = Some prompt /\
    trace (snd (_call self inputs s)) = trace s ++ t /\
    out = <[output_key_generated_sparql self := q]>
            (<[output_key_answer self := answer]> ∅) /\
    last_execution t = Some (Ok rs) /\
    query_results_to_json rs = Ok context /\
    last (executed_queries t) = Some q /\
    In (qa_invoke prompt context (Ok answer)) t /\
    count is_qa t = 1%nat /\ count is_generation t = 1%nat.
Proof.
  intros Hret.
  destruct (inputs !! input_key self) as [prompt|] eqn:Hin.
  2: { rewrite (call_missing_key self inputs s Hin) in Hret. discriminate. }
  destruct (call_run self inputs s prompt Hin) as (t & Ht & Hg & Hout).
  rewrite Hret in Hout.
  destruct Hout as (q & rs & context & answer & Hm & Hl & Hj & Hq & Hi & Hc).
  exists prompt, q, rs, context, answer, t. auto 10.
Qed.

(** X11.  Whenever [_call] returns, the keys of the mapping it returns are
    the [output_keys]. *)
Theorem returned_keys_are_output_keys inputs s out :
  fst (_call self inputs s) = Ok out ->
  dom out = list_to_set (output_keys self).
Proof.
  intros Hret.
  destruct (inputs !! input_key self) as [prompt|] eqn:Hin.
  2: { rewrite (call_missing_key self inputs s Hin) in Hret. discriminate. }
  destruct (call_run self inputs s prompt Hin) as (t & _ & _ & Hout).
  rewrite Hret in Hout. destruct Hout as (q & rs & context & answer & -> & _).
  unfold output_keys. cbn [list_to_set].
  rewrite !dom_insert_L, dom_empty_L.
  apply set_eq. intros x. rewrite !elem_of_union, !elem_of_singleton. tauto.
Qed.

(** X12.  When the two output keys are configured to be the same key, the
    mapping [_call] returns has that one key and holds the query executed
    last under it: the later entry of the dict literal replaces the answer. *)
Theorem one_output_key_keeps_the_query inputs s out :
  output_key_answer self = output_key_generated_sparql self ->
  fst (_call self inputs s) = Ok out ->
  exists q t,
    trace (snd (_call self inputs s)) = trace s ++ t /\
    last (executed_queries t) = Some q /\
    out = {[ output_key_generated_sparql self := q ]}.
Proof.
  intros Hkeys Hret.
  destruct (inputs !! input_key self) as [prompt|] eqn:Hin.
  2: { rewrite (call_missing_key self inputs s Hin) in Hret. discriminate. }
  destruct (call_run self inputs s prompt Hin) as (t & Ht & _ & Hout).
  rewrite Hret in Hout. destruct Hout as (q & rs & context & answer & -> & _ & _ & Hq & _).
  exists q, t. split; [exact Ht|]. split; [exact Hq|].
  rewrite Hkeys, insert_insert_eq, insert_empty. reflexivity.
Qed.

(** X13.  Whenever [_call] raises, the exception is the [KeyError] of the
    missing input key, or the [AttributeError] of the formatter on a result
    of the last execution that has no attribute [bindings], or one that a
    collaborator raised in a call of this run: no failure is swallowed into
    a partial answer, and no other is made up. *)
Theorem call_failure_comes_from_a_collaborator inputs s e :
  fst (_call self inputs s) = Err e ->
  (inputs !! input_key self = None /\ e = KeyError (repr self) (input_key self)) \/
  (exists t class_name,
      trace (snd (_call self inputs s)) = trace s ++ t /\
      last_execution t = Some (Ok (WithoutBindings class_name)) /\
      e = AttributeError class_name "bindings") \/
  (exists t, trace (snd (_call self inputs s)) = trace s ++ t /\ Exists (raises e) t).
Proof.
  intros Hraise.
  destruct (inputs !! input_key self) as [prompt|] eqn:Hin.
  - right. destruct (call_run self inputs s prompt Hin) as (t & Ht & _ & Hout).
    rewrite Hraise in Hout. destruct Hout as [[Hraised | (rs & Hlast & Hjson)] _].
    + right. exists t. auto.
    + left. destruct rs as [b|class_name]; [discriminate Hjson|].
      exists t, class_name. injection Hjson as <-. auto.
  - left. rewrite (call_missing_key self inputs s Hin) in Hraise.
    cbn [fst] in Hraise. split; congruence.
Qed.

(** X18.  When the successful execution answers with an object that has no
    attribute [bindings], [_call] raises the [AttributeError] of the
    formatter in the state [_execute_query] left: the results are not
    reported, the answer chain is not called, nothing is returned. *)
Theorem results_without_bindings_raise inputs s prompt t0 w1 q0 w2 q class_name s1 :
  inputs !! input_key self = Some prompt ->
  time_time self (world s) = (t0, w1) ->
  sparql_generation_chain self prompt (graph_get_schema self (world s)) w1 = (Ok q0, w2) ->
  _execute_query self q0 (graph_get_schema self (world s))
    (mkSt w2 (trace s ++ asked prompt (graph_get_schema self (world s)) (Ok q0)))
    = (Ok (q, WithoutBindings class_name), s1) ->
  _call self inputs s = (Err (AttributeError class_name "bindings"), s1) /\
  count is_qa (trace s1) = count is_qa (trace s).
Proof.
  intros Hin Hclock Hgen Hrun.
  split.
  - exact (call_format_raises self inputs s prompt t0 w1 q0 w2 q
             (WithoutBindings class_name) s1 _ Hin Hclock Hgen Hrun eq_refl).
  - destruct (execute_query_run self q0 (graph_get_schema self (world s))
                (mkSt w2 (trace s ++ asked prompt (graph_get_schema self (world s))
                                      (Ok q0))))
      as (t & Ht & _ & _ & Hq & _).
    rewrite Hrun in Ht. cbn [snd trace] in Ht.
    rewrite Ht, !count_app, Hq. cbn. lia.
Qed.

End ChainProperties.

(** ** Further properties of the result formatter *)

Lemma flat_spec_concat (rows : list Row) :
  flat_spec rows = map single_entry (List.concat rows).
Proof. unfold flat_spec. symmetry. apply List.concat_map. Qed.

Lemma flat_spec_flat_names_and_values (b : Bindings) :
  flat_spec (bindings b) =
  map (fun nv : string * string => JObject [(fst nv, JString (snd nv))])
      (List.concat (names_and_values b)).
Proof.
  rewrite flat_spec_concat. unfold names_and_values.
  rewrite <- List.concat_map, List.map_map. reflexivity.
Qed.

Lemma append_String (c : ascii) (a b : string) :
  String c a +:+ b = String c (a +:+ b).
Proof. reflexivity. Qed.

Lemma string_forall_app (p : ascii -> bool) (a b : string) :
  string_forall p (a +:+ b) = string_forall p a && string_forall p b.
Proof.
  induction a as [|c a IH]; [reflexivity|].
  rewrite append_String. cbn. rewrite IH. apply andb_assoc.
Qed.

Lemma hex_digit_printable (n : N) : printable (hex_digit n) = true.
Proof.
  destruct n as [|p]; [reflexivity|].
  do 5 (try (destruct p as [p|p|]; try reflexivity)).
Qed.

Lemma u_escape_printable (n : N) : string_forall printable (u_escape n) = true.
Proof.
  unfold u_escape, hex4. cbn [string_forall].
  rewrite !hex_digit_printable. reflexivity.
Qed.

Lemma escape_code_point_printable (n : N) :
  string_forall printable (escape_code_point n) = true.
Proof.
  unfold escape_code_point.
  repeat match goal with
         | |- context [(n =? ?m)%N] => destruct (n =? m)%N; [reflexivity|]
         end.
  destruct ((32 <=? n) && (n <=? 126))%N eqn:Hrange.
  - apply andb_true_iff in Hrange. destruct Hrange as [Hlo Hhi].
    cbn [string_forall]. unfold printable.
    rewrite N_ascii_embedding, Hlo, Hhi; [reflexivity|].
    apply N.leb_le in Hhi. lia.
  - destruct (n <? 65536)%N.
    + apply u_escape_printable.
    + cbv zeta. rewrite string_forall_app, !u_escape_printable. reflexivity.
Qed.

Lemma escape_string_printable (s : string) :
  string_forall printable (escape_string s) = true.
Proof.
  unfold escape_string.
  induction (decode_utf8 s) as [|n code_points IH]; [reflexivity|].
  cbn [escape_code_points].
  rewrite string_forall_app, escape_code_point_printable, IH. reflexivity.
Qed.

Lemma encode_printable (s : string) :
  string_forall printable (encode_basestring_ascii s) = true.
Proof.
  unfold encode_basestring_ascii. cbn [string_forall].
  rewrite string_forall_app, escape_string_printable. reflexivity.
Qed.

Lemma join_printable (parts : list string) :
  Forall (fun part => string_forall printable part = true) parts ->
  string_forall printable (join ", " parts) = true.
Proof.
  induction 1 as [|part parts Hpart _ IH]; [reflexivity|].
  destruct parts as [|part' parts]; [exact Hpart|].
  change (join ", " (part :: part' :: parts))
    with (part +:+ ", " +:+ join ", " (part' :: parts)).
  rewrite !string_forall_app, Hpart, IH. reflexivity.
Qed.

Lemma single_entry_printable (kv : string * Value) :
  string_forall printable (json_dumps (single_entry kv)) = true.
Proof.
  unfold single_entry. cbn.
  rewrite !string_forall_app, !encode_printable. reflexivity.
Qed.

Lemma decode_utf8_ascii (c : ascii) (s : string) :
  (N_of_ascii c <? 192)%N = true ->
  decode_utf8 (String c s) = N_of_ascii c :: decode_utf8 s.
Proof.
  intros Hlow. change (decode_utf8 (String c s))
    with (if (N_of_ascii c <? 192)%N then N_of_ascii c :: decode_utf8 s
          else match s with
               | String c1 s2 =>
                   if negb (continuation c1) then N_of_ascii c :: decode_utf8 s
                   else if (N_of_ascii c <? 224)%N then
                     ((N_of_ascii c - 192) * 64 + payload c1)%N :: decode_utf8 s2
                   else
                     match s2 with
                     | String c2 s3 =>
                         if negb (continuation c2) then N_of_ascii c :: decode_utf8 s
                         else if (N_of_ascii c <? 240)%N then
                           ((N_of_ascii c - 224) * 4096 + payload c1 * 64 + payload c2)%N
                           :: decode_utf8 s3
                         else
                           match s3 with
                           | String c3 s4 =>
                               if negb (continuation c3) || (248 <=? N_of_ascii c)%N
                               then N_of_ascii c :: decode_utf8 s
                               else
                                 ((N_of_ascii c - 240) * 262144 + payload c1 * 4096
                                  + payload c2 * 64 + payload c3)%N
                                 :: decode_utf8 s4
                           | EmptyString => N_of_ascii c :: decode_utf8 s
                           end
                     | EmptyString => N_of_ascii c :: decode_utf8 s
                     end
               | EmptyString => N_of_ascii c :: decode_utf8 s
               end).
  rewrite Hlow. reflexivity.
Qed.

Lemma plain_code_point (c : ascii) :
  plain c = true ->
  (N_of_ascii c <? 192)%N = true /\ escape_code_point (N_of_ascii c) = String c "".
Proof.
  destruct c as [[] [] [] [] [] [] [] []]; vm_compute; intros H;
    first [split; reflexivity | discriminate H].
Qed.

Lemma escape_string_plain (s : string) :
  string_forall plain s = true -> escape_string s = s.
Proof.
  unfold escape_string.
  induction s as [|c s IH]; [reflexivity|].
  cbn [string_forall]. intros Hplain.
  apply andb_true_iff in Hplain. destruct Hplain as [Hc Hs].
  destruct (plain_code_point c Hc) as [Hlow Hesc].
  rewrite (decode_utf8_ascii c s Hlow). cbn [escape_code_points].
  rewrite Hesc, (IH Hs). reflexivity.
Qed.

(** X14.  [query_results_to_json] does not keep the rows apart: two result
    sets whose bindings, read row after row, are the same sequence of names
    and values give the same text, however the bindings are grouped in
    rows. *)
Theorem query_results_to_json_forgets_rows (r1 r2 : Bindings) :
  List.concat (names_and_values r1) = List.concat (names_and_values r2) ->
  query_results_to_json (WithBindings r1) = query_results_to_json (WithBindings r2).
Proof.
  intros Heq.
  rewrite !query_results_to_json_spec, !flat_spec_flat_names_and_values, Heq.
  reflexivity.
Qed.

(** X15.  A result set without any binding, be it without rows or with rows
    that are all empty, is formatted as the empty JSON array. *)
Theorem query_results_to_json_no_bindings (r : Bindings) :
  List.concat (bindings r) = [] ->
  query_results_to_json (WithBindings r) = Ok "[]".
Proof.
  intros Hnone.
  rewrite query_results_to_json_spec, flat_spec_concat, Hnone. reflexivity.
Qed.

(** X16.  Whatever code points the names and values hold, the text
    [query_results_to_json] returns has only characters from space to tilde:
    no control character, no line break, nothing outside ASCII. *)
Theorem query_results_to_json_printable (r : QueryResults) (text : string) :
  query_results_to_json r = Ok text ->
  string_forall printable text = true.
Proof.
  destruct r as [b|class_name]; [|discriminate].
  rewrite query_results_to_json_spec, flat_spec_concat. intros [= <-].
  cbn [json_dumps]. rewrite !string_forall_app. cbn [string_forall printable].
  rewrite join_printable; [reflexivity|].
  apply List.Forall_forall. intros part Hin.
  apply List.in_map_iff in Hin. destruct Hin as (j & <- & Hin).
  apply List.in_map_iff in Hin. destruct Hin as (kv & <- & _).
  apply single_entry_printable.
Qed.

(** X17.  When every name and value is made of characters from space to
    tilde other than the double quote and the backslash, the text
    [query_results_to_json] returns holds them as they are: it is the
    bracketed list, separated by a comma and a space, of one
    [{"name": "value"}] per binding. *)
Theorem plain_bindings_are_written_verbatim (r : Bindings) :
  Forall (fun nv : string * string =>
            string_forall plain (fst nv) = true /\ string_forall plain (snd nv) = true)
         (List.concat (names_and_values r)) ->
  query_results_to_json (WithBindings r) =
  Ok ("[" +:+
      join ", "
        (map (fun nv : string * string =>
                "{" +:+ (String dquote (fst nv +:+ String dquote "") +:+ ": "
                         +:+ String dquote (snd nv +:+ String dquote "")) +:+ "}")
             (List.concat (names_and_values r))) +:+
      "]").
Proof.
  intros Hplain.
  rewrite query_results_to_json_spec, flat_spec_flat_names_and_values.
  cbn [json_dumps]. do 4 f_equal. rewrite List.map_map.
  apply List.map_ext_in. intros nv Hin.
  apply (proj1 (List.Forall_forall _ _) Hplain) in Hin. destruct Hin as [Hk Hv].
  cbn [json_dumps map fst snd join]. unfold encode_basestring_ascii.
  rewrite (escape_string_plain _ Hk), (escape_string_plain _ Hv). reflexivity.
Qed.

(** ** The further properties at concrete collaborators *)

Lemma generation_failure_propagates_witness :
  _call Script.tongue_tied Script.question Script.start
    = (Err Script.overloaded,
       mkSt 0%nat (asked "How many triples exist?" "SCHEMA" (Err Script.overloaded))) /\
  count is_exec (trace (snd (_call Script.tongue_tied Script.question Script.start)))
    = 0%nat /\
  count is_fix (trace (snd (_call Script.tongue_tied Script.question Script.start)))
    = 0%nat /\
  count is_qa (trace (snd (_call Script.tongue_tied Script.question Script.start)))
    = 0%nat.
Proof.
  apply (generation_failure_propagates Script.tongue_tied Script.question Script.start
           "How many triples exist?" tt 0%nat Script.overloaded 0%nat).
  all: reflexivity.
Defined.

Lemma answer_failure_propagates_witness :
  _call Script.mute Script.question Script.start
    = (Err Script.overloaded,
       mkSt 0%nat
         ((asked "How many triples exist?" "SCHEMA" (Ok "GOOD")
           ++ attempt "GOOD" (Ok Script.rows1))
          ++ answered "How many triples exist?" Script.flat_text
               (Err Script.overloaded))) /\
  count is_qa (trace (snd (_call Script.mute Script.question Script.start))) = 1%nat.
Proof.
  apply (answer_failure_propagates Script.mute Script.question Script.start
           "How many triples exist?" tt 0%nat "GOOD" 0%nat "GOOD" Script.rows1
           (mkSt 0%nat (asked "How many triples exist?" "SCHEMA" (Ok "GOOD")
                        ++ attempt "GOOD" (Ok Script.rows1)))
           Script.flat_text Script.overloaded 0%nat).
  all: reflexivity.
Defined.

Lemma repaired_query_failure_is_not_reported_witness :
  _execute_query Script.cramped "BAD0" "SCHEMA" Script.start
    = (Err (Exn URITooLong "414"),
       mkSt 1%nat
         ((attempt "BAD0" (Err (Exn QueryBadFormed "bad: BAD0"))
           ++ [bad_formed_text (Exn QueryBadFormed "bad: BAD0")])
          ++ retry_text 3 (mkLocals 1 "bad: BAD0" "BAD0")
          :: repair_call (mkLocals 1 "bad: BAD0" "BAD0") "SCHEMA" (Ok "LONG")
          :: attempt "LONG" (Err (Exn URITooLong "414")))) /\
  last (trace (snd (_execute_query Script.cramped "BAD0" "SCHEMA" Script.start)))
    = Some (exec_query "LONG" (Err (Exn URITooLong "414"))).
Proof.
  apply (repaired_query_failure_is_not_reported Script.cramped "BAD0" "SCHEMA"
           Script.start (Exn QueryBadFormed "bad: BAD0") 0%nat 0
           (mkLocals 1 "bad: BAD0" "BAD0")
           (mkSt 0%nat (attempt "BAD0" (Err (Exn QueryBadFormed "bad: BAD0"))
                        ++ [bad_formed_text (Exn QueryBadFormed "bad: BAD0")]))
           "LONG" 1%nat (Exn URITooLong "414") 1%nat).
  - reflexivity.
  - reflexivity.
  - apply nsteps_O.
  - cbn. lia.
  - reflexivity.
  - reflexivity.
  - discriminate.
Defined.

Lemma returned_query_was_executed_last_witness :
  last (trace (snd (_execute_query (Script.chain 3 2) "BAD0" "SCHEMA" Script.start)))
  = Some (exec_query "GOOD" (Ok Script.rows1)).
Proof.
  apply (returned_query_was_executed_last (Script.chain 3 2) "BAD0" "SCHEMA" Script.start
           "GOOD" Script.rows1).
  vm_compute. reflexivity.
Defined.

Lemma raised_failure_comes_from_a_collaborator_witness :
  exists t,
    trace (snd (_execute_query (Script.hopeless 1) "BAD0" "SCHEMA" Script.start)) = t /\
    Exists (raises (Exn QueryBadFormed "bad: BAD")) t.
Proof.
  apply (raised_failure_comes_from_a_collaborator (Script.hopeless 1) "BAD0" "SCHEMA"
           Script.start (Exn QueryBadFormed "bad: BAD")).
  vm_compute. reflexivity.
Defined.

Lemma no_budget_no_repair_witness :
  exists t,
    trace (snd (_execute_query (Script.chain (-1) 1) "BAD0" "SCHEMA" Script.start)) = t /\
    executed_queries t = ["BAD0"] /\
    count is_fix t = 0%nat.
Proof.
  apply (no_budget_no_repair (Script.chain (-1) 1) "BAD0" "SCHEMA" Script.start).
  cbn. lia.
Defined.

Lemma call_returns_what_was_executed_and_answered_witness :
  exists prompt q rs context answer t,
    Script.question !! "question" = Some prompt /\
    trace (snd (_call (Script.chain 3 2) Script.question Script.start)) = t /\
    (<["generated_sparql" := "GOOD"]>
       (<["answer" := "ANSWER to " +:+ Script.flat_text]> ∅) : gmap string string)
    = <["generated_sparql" := q]> (<["answer" := answer]> ∅) /\
    last_execution t = Some (Ok rs) /\
    query_results_to_json rs = Ok context /\
    last (executed_queries t) = Some q /\
    In (qa_invoke prompt context (Ok answer)) t /\
    count is_qa t = 1%nat /\ count is_generation t = 1%nat.
Proof.
  apply (call_returns_what_was_executed_and_answered (Script.chain 3 2) Script.question
           Script.start
           (<["generated_sparql" := "GOOD"]>
              (<["answer" := "ANSWER to " +:+ Script.flat_text]> ∅))).
  vm_compute. reflexivity.
Defined.

Lemma returned_keys_are_output_keys_witness :
  dom (<["generated_sparql" := "GOOD"]>
         (<["answer" := "ANSWER to " +:+ Script.flat_text]> ∅) : gmap string string)
  = list_to_set ["answer"; "generated_sparql"].
Proof.
  apply (returned_keys_are_output_keys (Script.chain 3 2) Script.question Script.start).
  vm_compute. reflexivity.
Defined.

Lemma one_output_key_keeps_the_query_witness :
  exists q t,
    trace (snd (_call Script.one_key Script.question Script.start)) = t /\
    last (executed_queries t) = Some q /\
    ({[ "output" := "GOOD" ]} : gmap string string) = {[ "output" := q ]}.
Proof.
  apply (one_output_key_keeps_the_query Script.one_key Script.question Script.start
           {[ "output" := "GOOD" ]}).
  - reflexivity.
  - vm_compute. reflexivity.
Defined.

Lemma call_failure_comes_from_a_collaborator_witness :
  (Script.question !! "question" = None /\
   AttributeError "dict" "bindings" = KeyError Script.repr_ascii "question") \/
  (exists t class_name,
      trace (snd (_call Script.raw Script.question Script.start)) = t /\
      last_execution t = Some (Ok (WithoutBindings class_name)) /\
      AttributeError "dict" "bindings" = AttributeError class_name "bindings") \/
  (exists t,
      trace (snd (_call Script.raw Script.question Script.start)) = t /\
      Exists (raises (AttributeError "dict" "bindings")) t).
Proof.
  apply (call_failure_comes_from_a_collaborator Script.raw Script.question
           Script.start (AttributeError "dict" "bindings")).
  vm_compute. reflexivity.
Defined.

Lemma results_without_bindings_raise_witness :
  _call Script.raw Script.question Script.start
    = (Err (AttributeError "dict" "bindings"),
       mkSt 0%nat (asked "How many triples exist?" "SCHEMA" (Ok "GOOD")
                   ++ attempt "GOOD" (Ok (WithoutBindings "dict")))) /\
  count is_qa (asked "How many triples exist?" "SCHEMA" (Ok "GOOD")
               ++ attempt "GOOD" (Ok (WithoutBindings "dict"))) = 0%nat.
Proof.
  apply (results_without_bindings_raise Script.raw Script.question Script.start
           "How many triples exist?" tt 0%nat "GOOD" 0%nat "GOOD" "dict"
           (mkSt 0%nat (asked "How many triples exist?" "SCHEMA" (Ok "GOOD")
                        ++ attempt "GOOD" (Ok (WithoutBindings "dict"))))).
  all: reflexivity.
Defined.

Lemma query_results_to_json_forgets_rows_witness :
  query_results_to_json Script.rows1
  = query_results_to_json (WithBindings Script.bindings1_split).
Proof.
  apply (query_results_to_json_forgets_rows Script.bindings1 Script.bindings1_split).
  reflexivity.
Defined.

Lemma query_results_to_json_no_bindings_witness :
  query_results_to_json (WithBindings Script.bindings_unbound) = Ok "[]".
Proof.
  apply (query_results_to_json_no_bindings Script.bindings_unbound).
  reflexivity.
Defined.

Lemma query_results_to_json_printable_witness :
  query_results_to_json (WithBindings Script.bindings_accented) = Ok Script.escaped_text /\
  string_forall printable Script.escaped_text = true.
Proof.
  split; [reflexivity|].
  apply (query_results_to_json_printable (WithBindings Script.bindings_accented)
           Script.escaped_text).
  reflexivity.
Defined.

Lemma plain_bindings_are_written_verbatim_witness :
  query_results_to_json Script.rows1 = Ok Script.flat_text.
Proof.
  apply (plain_bindings_are_written_verbatim Script.bindings1).
  repeat constructor.
Defined.
